(** * The natural-language-to-SQL query processor

    A shallow embedding of [Modules/query_processor.py] (class
    [QueryProcessor]): the SQL sanitizer [clean_sql_query], the advisory
    check [validate_sql] and the resolution pipeline
    [natural_language_to_sql] with its two pattern tables.

    Python [str] values are modelled as lists of characters.  The model
    covers ASCII text: [upper], [lower] and the white-space class are the
    ASCII parts of Python's; a character above 127 is an uncased character
    that is not white space.

    The definitions come first, the lemmas and the theorems about them
    follow. *)

From Stdlib Require Import String Ascii List Bool Arith Lia.
Import ListNotations.

Set Implicit Arguments.
Local Open Scope string_scope.
Local Open Scope list_scope.
Local Open Scope nat_scope.

Abbreviation str := (list ascii).

(** String literals of the source are written as Rocq strings. *)
Coercion list_ascii_of_string : string >-> list.

(** ** Python [str] operations *)

Module PyStr.

Definition code (c : ascii) : nat := nat_of_ascii c.

Definition LF : ascii := ascii_of_nat 10.
Definition SP : ascii := ascii_of_nat 32.
Definition BT : ascii := ascii_of_nat 96.
Definition LPAREN : ascii := ascii_of_nat 40.
Definition RPAREN : ascii := ascii_of_nat 41.

(** [str.isspace] on one ASCII character: TAB, LF, VT, FF, CR, the four
    separators FS, GS, RS, US, and the space. *)
Definition is_space (c : ascii) : bool :=
  let n := code c in
  ((9 <=? n) && (n <=? 13)) || ((28 <=? n) && (n <=? 32)).

Definition is_lower (c : ascii) : bool := (97 <=? code c) && (code c <=? 122).
Definition is_upper (c : ascii) : bool := (65 <=? code c) && (code c <=? 90).

Definition upper_char (c : ascii) : ascii :=
  if is_lower c then ascii_of_nat (code c - 32) else c.
Definition lower_char (c : ascii) : ascii :=
  if is_upper c then ascii_of_nat (code c + 32) else c.

(** [s.upper()] and [s.lower()] *)
Definition upper (s : str) : str := map upper_char s.
Definition lower (s : str) : str := map lower_char s.

Definition eqb_char (a b : ascii) : bool := Ascii.eqb a b.

(** [s.startswith(p)] *)
Fixpoint startswith (s p : str) {struct p} : bool :=
  match p with
  | [] => true
  | a :: p' =>
      match s with
      | [] => false
      | b :: s' => eqb_char a b && startswith s' p'
      end
  end.

(** [m in s] : [m] occurs in [s] as a contiguous block. *)
Fixpoint contains (m s : str) : bool :=
  startswith s m ||
  match s with
  | [] => false
  | _ :: t => contains m t
  end.

(** [s.count(c)] for a one-character [c]. *)
Definition count (c : ascii) (s : str) : nat :=
  length (filter (eqb_char c) s).

(** [s.split()] : the maximal blocks of characters that are not white
    space, in order.  A character that is followed by a character of the
    same word is put in front of the first word of the rest. *)
Fixpoint split (s : str) : list str :=
  match s with
  | [] => []
  | c :: t =>
      if is_space c then split t
      else
        match t with
        | [] => [[c]]
        | d :: _ =>
            if is_space d then [c] :: split t
            else
              match split t with
              | w :: ws => (c :: w) :: ws
              | [] => [[c]]
              end
        end
  end.

(** [sep.join(ws)] *)
Fixpoint join (sep : str) (ws : list str) : str :=
  match ws with
  | [] => []
  | [w] => w
  | w :: rest => w ++ sep ++ join sep rest
  end.

(** [s.lstrip()], [s.rstrip()], [s.strip()] *)
Fixpoint lstrip (s : str) : str :=
  match s with
  | [] => []
  | c :: t => if is_space c then lstrip t else s
  end.
Definition rstrip (s : str) : str := rev (lstrip (rev s)).
Definition strip (s : str) : str := lstrip (rstrip s).

(** [re.sub(marker + r'\n?', '', s)] for a literal, non-empty [marker]:
    scanning from the left, every occurrence of [marker] is deleted
    together with the line feed that follows it, if there is one, and the
    scan goes on behind what was deleted.  [skip] counts the characters of
    the current occurrence that are still to be deleted. *)
Fixpoint sub_marker_from (marker : str) (skip : nat) (s : str) : str :=
  match s with
  | [] => []
  | c :: t =>
      match skip with
      | S k => sub_marker_from marker k t
      | O =>
          if startswith s marker then
            let after := skipn (length marker) s in
            let nl := match after with
                      | d :: _ => if eqb_char d LF then 1 else 0
                      | [] => 0
                      end in
            sub_marker_from marker (length marker - 1 + nl) t
          else c :: sub_marker_from marker 0 t
      end
  end.

Definition sub_marker (marker s : str) : str := sub_marker_from marker 0 s.

(** The same scan told one occurrence at a time: what is left of [s]
    behind an occurrence, less its line feed. *)
Definition drop_lf (s : str) : str :=
  match s with
  | d :: r => if eqb_char d LF then r else s
  | [] => []
  end.

(** [' '.join(s.split())] *)
Definition collapse_whitespace (s : str) : str := join [SP] (split s).

(** A word: a non-empty block without white space. *)
Definition is_word (w : str) : Prop :=
  w <> [] /\ Forall (fun c => is_space c = false) w.

Definition fence : str := [BT; BT; BT].

End PyStr.

Import PyStr.

(** ** Regular expressions: the fragment of [re] the tables use

    Literal characters, [.], concatenation, alternation and [*], all
    under the flag [(?i)].  [re.match] and [re.search] are used by the
    source as tests only, so only the existence of a match matters; it is
    decided with derivatives and specified by the relation [matches]. *)

Module Regex.

Inductive regex : Type :=
| Empty
| Eps
| Chr (c : ascii)
| Dot
| Cat (r1 r2 : regex)
| Alt (r1 r2 : regex)
| Star (r : regex).

(** A pattern character against a subject character under IGNORECASE. *)
Definition chr_match (c x : ascii) : bool :=
  eqb_char (lower_char c) (lower_char x).

(** [.] without DOTALL: every character but the line feed. *)
Definition dot_match (x : ascii) : bool := negb (eqb_char x LF).

Inductive matches : regex -> str -> Prop :=
| MEps : matches Eps []
| MChr c x : chr_match c x = true -> matches (Chr c) [x]
| MDot x : dot_match x = true -> matches Dot [x]
| MCat r1 r2 s1 s2 :
    matches r1 s1 -> matches r2 s2 -> matches (Cat r1 r2) (s1 ++ s2)
| MAltL r1 r2 s : matches r1 s -> matches (Alt r1 r2) s
| MAltR r1 r2 s : matches r2 s -> matches (Alt r1 r2) s
| MStar0 r : matches (Star r) []
| MStarS r s1 s2 :
    matches r s1 -> matches (Star r) s2 -> matches (Star r) (s1 ++ s2).

Fixpoint nullable (r : regex) : bool :=
  match r with
  | Empty | Chr _ | Dot => false
  | Eps | Star _ => true
  | Cat r1 r2 => nullable r1 && nullable r2
  | Alt r1 r2 => nullable r1 || nullable r2
  end.

Fixpoint deriv (x : ascii) (r : regex) : regex :=
  match r with
  | Empty | Eps => Empty
  | Chr c => if chr_match c x then Eps else Empty
  | Dot => if dot_match x then Eps else Empty
  | Cat r1 r2 =>
      if nullable r1
      then Alt (Cat (deriv x r1) r2) (deriv x r2)
      else Cat (deriv x r1) r2
  | Alt r1 r2 => Alt (deriv x r1) (deriv x r2)
  | Star r1 => Cat (deriv x r1) (Star r1)
  end.

(** The whole of [s] matches [r]. *)
Fixpoint accepts (r : regex) (s : str) : bool :=
  match s with
  | [] => nullable r
  | x :: t => accepts (deriv x r) t
  end.

(** [re.match(r, s)] as a test: some prefix of [s] matches [r]. *)
Fixpoint re_match (r : regex) (s : str) : bool :=
  nullable r ||
  match s with
  | [] => false
  | x :: t => re_match (deriv x r) t
  end.

(** [re.search(r, s)] as a test: a match starts somewhere in [s]. *)
Fixpoint re_search (r : regex) (s : str) : bool :=
  re_match r s ||
  match s with
  | [] => false
  | _ :: t => re_search r t
  end.

(** Writing the patterns of the source. *)
Definition lit (s : str) : regex :=
  fold_right (fun c r => Cat (Chr c) r) Eps s.
Definition any_star : regex := Star Dot.
Definition seq (rs : list regex) : regex := fold_right Cat Eps rs.
Definition alts (rs : list regex) : regex := fold_right Alt Empty rs.

(** A pattern that cannot match without a character that is not white
    space. *)
Fixpoint needs_ink (r : regex) : bool :=
  match r with
  | Empty => true
  | Eps | Dot | Star _ => false
  | Chr c => negb (is_space c)
  | Cat r1 r2 => needs_ink r1 || needs_ink r2
  | Alt r1 r2 => needs_ink r1 && needs_ink r2
  end.

End Regex.

Import Regex.

(** ** Exceptions and dynamically typed arguments *)

Inductive exception : Type :=
| ValueError (msg : str)
| TypeError (msg : str)
| AttributeError (msg : str)
| APIError (msg : str).

(** [str(e)] *)
Definition str_of (e : exception) : str :=
  match e with
  | ValueError m | TypeError m | AttributeError m | APIError m => m
  end.

(** A computation that returns a value or raises. *)
Definition result (A : Type) : Type := (exception + A)%type.

Definition ret {A : Type} (a : A) : result A := inr a.
Definition raise {A : Type} (e : exception) : result A := inl e.
Definition bind {A B : Type} (m : result A) (k : A -> result B) : result B :=
  match m with
  | inl e => inl e
  | inr a => k a
  end.

(** [try: body  except Exception as e: handler(e)] *)
Definition try_except {A : Type} (body : result A)
  (handler : exception -> result A) : result A :=
  match body with
  | inl e => handler e
  | inr a => inr a
  end.

Notation "x <- m ;; k" := (bind m (fun x => k))
  (at level 61, m at next level, right associativity).

(** What a caller can pass as the question: a string, or an object that is
    not a string ([None] stands for all of them). *)
Inductive pyobj : Type :=
| PyStr (s : str)
| PyNone.

(** Truth value of [os.getenv(...)]: [None] and the empty string are false. *)
Definition truthy (v : option str) : bool :=
  match v with
  | Some (_ :: _) => true
  | _ => false
  end.

(** ** The sanitizer *)

Definition dangerous_keywords : list str :=
  [ "DROP" : str; "DELETE" : str; "INSERT" : str; "UPDATE" : str;
    "ALTER" : str; "CREATE" : str; "TRUNCATE" : str ].

Definition dangerous_message : str :=
  "Potentially dangerous SQL operation detected: ".

(** The loop over [dangerous_keywords]. *)
Fixpoint check_keywords (keywords : list str) (sql_upper : str) : result unit :=
  match keywords with
  | [] => ret tt
  | keyword :: rest =>
      if contains keyword sql_upper && negb (startswith sql_upper "SELECT")
      then raise (ValueError (dangerous_message ++ keyword))
      else check_keywords rest sql_upper
  end.

Definition clean_sql_query (sql_query : str) : result str :=
  let sql_query := sub_marker "```sql" sql_query in
  let sql_query := sub_marker "```" sql_query in
  let sql_query := join " " (split sql_query) in
  let sql_upper := upper sql_query in
  _ <- check_keywords dangerous_keywords sql_upper ;;
  ret (strip sql_query).

Definition validate_sql (sql_query : str) : bool :=
  match
    try_except
      (cleaned_sql <- clean_sql_query sql_query ;;
       if negb (startswith (upper cleaned_sql) "SELECT") then ret false
       else if negb (count LPAREN cleaned_sql =? count RPAREN cleaned_sql)
            then ret false
            else ret true)
      (fun _ => ret false)
  with
  | inr b => b
  | inl _ => false
  end.

(** The text the keyword check of [clean_sql_query] looks at. *)
Definition strip_code_fences (raw : str) : str :=
  sub_marker "```" (sub_marker "```sql" raw).
Definition cleaned_text (raw : str) : str :=
  collapse_whitespace (strip_code_fences raw).

(** The conditions of the check, as properties of a text. *)
Definition mentions_keyword (t : str) : Prop :=
  exists kw a b, In kw dangerous_keywords /\ upper t = a ++ kw ++ b.
Definition begins_with_select (t : str) : Prop :=
  exists r, upper t = "SELECT" ++ r.

(** ** The pattern tables *)

Definition fallback_patterns : list (regex * str) :=
  [ (* (?i).*all sales.* *)
    (seq [any_star; lit "all sales"; any_star],
     "SELECT * FROM sales ORDER BY sale_date DESC" : str);
    (* (?i).*sales by category.* *)
    (seq [any_star; lit "sales by category"; any_star],
     "SELECT category, SUM(price * quantity) as total_sales FROM sales GROUP BY category ORDER BY total_sales DESC" : str);
    (* (?i).*total sales.* *)
    (seq [any_star; lit "total sales"; any_star],
     "SELECT SUM(price * quantity) as total_sales FROM sales" : str);
    (* (?i).*customers.* *)
    (seq [any_star; lit "customers"; any_star],
     "SELECT * FROM customers ORDER BY registration_date DESC" : str);
    (* (?i).*average age.* *)
    (seq [any_star; lit "average age"; any_star],
     "SELECT AVG(age) as average_age FROM customers" : str);
    (* (?i).*sales by region.* *)
    (seq [any_star; lit "sales by region"; any_star],
     "SELECT region, SUM(price * quantity) as total_sales FROM sales GROUP BY region ORDER BY total_sales DESC" : str);
    (* (?i).*top.*products.* *)
    (seq [any_star; lit "top"; any_star; lit "products"; any_star],
     "SELECT product_name, SUM(quantity) as total_sold FROM sales GROUP BY product_name ORDER BY total_sold DESC LIMIT 10" : str);
    (* (?i).*recent sales.* *)
    (seq [any_star; lit "recent sales"; any_star],
     "SELECT * FROM sales ORDER BY sale_date DESC LIMIT 10" : str);
    (* (?i).*revenue.* *)
    (seq [any_star; lit "revenue"; any_star],
     "SELECT SUM(price * quantity) as total_revenue FROM sales" : str) ].

Definition patterns : list (regex * str) :=
  [ (* (?i).*(all|show|display).*sales *)
    (seq [any_star; alts [lit "all"; lit "show"; lit "display"]; any_star; lit "sales"],
     "SELECT * FROM sales ORDER BY sale_date DESC" : str);
    (* (?i).*total.*sales.*category *)
    (seq [any_star; lit "total"; any_star; lit "sales"; any_star; lit "category"],
     "SELECT category, SUM(price * quantity) as total_sales FROM sales GROUP BY category ORDER BY total_sales DESC" : str);
    (* (?i).*sales.*region *)
    (seq [any_star; lit "sales"; any_star; lit "region"],
     "SELECT region, SUM(price * quantity) as total_sales FROM sales GROUP BY region ORDER BY total_sales DESC" : str);
    (* (?i).*total.*sales *)
    (seq [any_star; lit "total"; any_star; lit "sales"],
     "SELECT SUM(price * quantity) as total_sales FROM sales" : str);
    (* (?i).*revenue *)
    (seq [any_star; lit "revenue"],
     "SELECT SUM(price * quantity) as total_revenue FROM sales" : str);
    (* (?i).*(top|best).*products *)
    (seq [any_star; alts [lit "top"; lit "best"]; any_star; lit "products"],
     "SELECT product_name, SUM(quantity) as total_sold, SUM(price * quantity) as revenue FROM sales GROUP BY product_name ORDER BY revenue DESC LIMIT 10" : str);
    (* (?i).*recent.*sales *)
    (seq [any_star; lit "recent"; any_star; lit "sales"],
     "SELECT * FROM sales ORDER BY sale_date DESC LIMIT 10" : str);
    (* (?i).*(all|show|display).*customers *)
    (seq [any_star; alts [lit "all"; lit "show"; lit "display"]; any_star; lit "customers"],
     "SELECT * FROM customers ORDER BY registration_date DESC" : str);
    (* (?i).*average.*age *)
    (seq [any_star; lit "average"; any_star; lit "age"],
     "SELECT AVG(age) as average_age FROM customers" : str);
    (* (?i).*customers.*city *)
    (seq [any_star; lit "customers"; any_star; lit "city"],
     "SELECT city, COUNT(*) as customer_count FROM customers GROUP BY city ORDER BY customer_count DESC" : str);
    (* (?i).*count.*sales *)
    (seq [any_star; lit "count"; any_star; lit "sales"],
     "SELECT COUNT(*) as total_sales_count FROM sales" : str);
    (* (?i).*count.*customers *)
    (seq [any_star; lit "count"; any_star; lit "customers"],
     "SELECT COUNT(*) as total_customers FROM customers" : str) ].

(** Equality of strings, computed. *)
Definition str_eqb (a b : str) : bool :=
  if list_eq_dec ascii_dec a b then true else false.

(** ** The resolver *)

(** The object [self]: the credential, as [os.getenv] gave it to
    [__init__], and the schema context. *)
Record QueryProcessor : Type := {
  openai_api_key : option str;
  schema_context : str
}.

(** [__init__] *)
Definition init (getenv_OPENAI_API_KEY : option str) : QueryProcessor :=
  {| openai_api_key := getenv_OPENAI_API_KEY; schema_context := [] |}.

(** A column as the database describes it. *)
Record column : Type := {
  column_name : str;
  data_type : str;
  is_nullable : str
}.

(** [set_database_schema]: [table_info] is a dict, read in insertion order. *)
Definition column_definition (col : column) : str :=
  let col_def := column_name col ++ " (" ++ data_type col ++ ")" in
  if str_eqb (is_nullable col) "NO" then col_def ++ " NOT NULL" else col_def.

Definition table_part (entry : str * list column) : str :=
  "Table: " ++ fst entry ++ [LF] ++ "Columns: " ++
  join ", " (map column_definition (snd entry)).

Definition set_database_schema (self : QueryProcessor)
  (table_info : list (str * list column)) : QueryProcessor :=
  {| openai_api_key := openai_api_key self;
     schema_context := join [LF; LF] (map table_part table_info) |}.

(** What lies outside the program.  [chat_completion] is the remote call of
    [_openai_to_sql]: [openai.ChatCompletion.create] with the system prompt
    built around the schema context and the question as the user message,
    read up to [response.choices[0].message.content]; it returns that text
    or raises.  [subject_error] and [lower_error] are the texts of the
    interpreter's errors for a question that is not a string, the
    [TypeError] of [re] and the [AttributeError] of [.lower()]; their
    wording differs between interpreter versions. *)
Record Runtime : Type := {
  chat_completion : str -> pyobj -> result str;
  subject_error : str;
  lower_error : str
}.

Section Resolver.

Variable rt : Runtime.

(** [re.match(pattern, nl_query)] and [re.search(pattern, nl_query)] on an
    argument of any type. *)
Definition py_re_match (pattern : regex) (nl_query : pyobj) : result bool :=
  match nl_query with
  | PyStr s => ret (re_match pattern s)
  | PyNone => raise (TypeError (subject_error rt))
  end.

Definition py_re_search (pattern : regex) (nl_query : pyobj) : result bool :=
  match nl_query with
  | PyStr s => ret (re_search pattern s)
  | PyNone => raise (TypeError (subject_error rt))
  end.

(** [for pattern, sql in table: if test(pattern, nl_query): return sql] *)
Fixpoint first_hit (test : regex -> pyobj -> result bool)
  (table : list (regex * str)) (nl_query : pyobj) : result (option str) :=
  match table with
  | [] => ret None
  | (pattern, sql) :: rest =>
      hit <- test pattern nl_query ;;
      if hit : bool then ret (Some sql) else first_hit test rest nl_query
  end.

Definition _rule_based_to_sql (nl_query : pyobj) : result (str * str) :=
  _ <- match nl_query with
       | PyStr s => ret (PyStr (lower s))
       | PyNone => raise (AttributeError (lower_error rt))
       end ;;
  found <- first_hit py_re_search patterns nl_query ;;
  match found with
  | Some sql => ret (sql, "Rule-based matching" : str)
  | None => ret ("SELECT * FROM sales LIMIT 10" : str, "Default fallback" : str)
  end.

Definition _openai_to_sql (self : QueryProcessor) (nl_query : pyobj)
  : result (str * str) :=
  try_except
    (content <- chat_completion rt (schema_context self) nl_query ;;
     let sql_query := strip content in
     cleaned_sql <- clean_sql_query sql_query ;;
     ret (cleaned_sql, "OpenAI GPT" : str))
    (fun _ => _rule_based_to_sql nl_query).

(** The body of the [try] of [natural_language_to_sql]. *)
Definition resolve_body (self : QueryProcessor) (nl_query : pyobj)
  : result (str * str) :=
  found <- first_hit py_re_match fallback_patterns nl_query ;;
  match found with
  | Some sql => ret (sql, "Pattern matching" : str)
  | None =>
      if truthy (openai_api_key self)
      then _openai_to_sql self nl_query
      else _rule_based_to_sql nl_query
  end.

Definition natural_language_to_sql (self : QueryProcessor) (nl_query : pyobj)
  : str * str :=
  match resolve_body self nl_query with
  | inr r => r
  | inl e => ("SELECT 1 as error" : str, "Error: " ++ str_of e)
  end.

End Resolver.

(** A check that can be computed: the sanitizer returns [sql] unchanged and
    the advisory check accepts it. *)
Definition passes_sanitizer (sql : str) : bool :=
  match clean_sql_query sql with
  | inr y => str_eqb y sql
  | inl _ => false
  end.

(** What [_rule_based_to_sql] returns when no pattern of its table is
    found. *)
Definition default_result : str * str :=
  ("SELECT * FROM sales LIMIT 10" : str, "Default fallback" : str).

(** ** Environments of the examples *)

(** A remote call that answers [text] and one that raises, under the error
    texts of one interpreter version. *)
Definition subject_error_text : str := "expected string or bytes-like object".
Definition lower_error_text : str :=
  "'NoneType' object has no attribute 'lower'".

Definition remote_answers (text : str) : Runtime :=
  {| chat_completion := fun _ _ => ret text;
     subject_error := subject_error_text;
     lower_error := lower_error_text |}.
Definition remote_down : Runtime :=
  {| chat_completion := fun _ _ => raise (APIError "Request timed out");
     subject_error := subject_error_text;
     lower_error := lower_error_text |}.

(** The processor as [__init__] leaves it, without and with a credential. *)
Definition without_key : QueryProcessor := init None.
Definition with_key : QueryProcessor := init (Some ("sk-test" : str)).

(** ** The explanation of a query *)

(** The vocabulary of [get_query_explanation], a dict read in insertion
    order.  The multiplication sign of the second text is the one character
    U+00D7. *)
Definition explanations : list (str * str) :=
  [ ("SELECT * FROM sales" : str, "Retrieving all sales records" : str);
    ("SUM(price * quantity)" : str,
     "Calculating total revenue (price " ++ [ascii_of_nat 215] ++ " quantity)");
    ("GROUP BY" : str, "Grouping results by specified column(s)" : str);
    ("ORDER BY" : str, "Sorting results by specified column(s)" : str);
    ("COUNT(*)" : str, "Counting total number of records" : str);
    ("AVG(" : str, "Calculating average value" : str);
    ("LIMIT" : str, "Limiting number of results returned" : str) ].

(** The loop over the vocabulary; [explanation_parts] is the list the
    source appends to. *)
Fixpoint explanation_loop (entries : list (str * str)) (sql_upper : str)
  (explanation_parts : list str) : list str :=
  match entries with
  | [] => explanation_parts
  | (pattern, explanation) :: rest =>
      if contains (upper pattern) sql_upper
      then explanation_loop rest sql_upper (explanation_parts ++ [explanation])
      else explanation_loop rest sql_upper explanation_parts
  end.

Definition explanation_prefix : str := "This query is: ".
Definition explanation_generic : str :=
  "This query retrieves data from the database".
Definition explanation_unavailable : str := "Query explanation not available".

Definition get_query_explanation (sql_query : pyobj) : str :=
  match
    try_except
      (sql_upper <- match sql_query with
                    | PyStr s => ret (upper s)
                    | PyNone =>
                        raise (AttributeError
                                 "'NoneType' object has no attribute 'upper'")
                    end ;;
       let explanation_parts := explanation_loop explanations sql_upper [] in
       match explanation_parts with
       | _ :: _ => ret (explanation_prefix ++ join ", " explanation_parts)
       | [] => ret explanation_generic
       end)
      (fun _ => ret explanation_unavailable)
  with
  | inr text => text
  | inl _ => explanation_unavailable
  end.

(** The vocabulary entries whose upper-cased pattern occurs in a text. *)
Definition explanation_hits (sql_upper : str) : list (str * str) :=
  filter (fun entry => contains (upper (fst entry)) sql_upper) explanations.

(** ** Lines of a question *)

(** A pattern none of whose characters can match a line feed: its matches
    stay within one line. *)
Fixpoint one_line (r : regex) : bool :=
  match r with
  | Empty | Eps | Dot => true
  | Chr c => negb (chr_match c LF)
  | Cat r1 r2 | Alt r1 r2 => one_line r1 && one_line r2
  | Star r1 => one_line r1
  end.

(** Two texts that differ in letter case only. *)
Definition same_letters (a b : str) : Prop := lower a = lower b.

(** ** [set_database_schema] on an argument of any shape *)

(** A value as a JSON body carries it: [None], a bool, a number (kept as
    its literal), a string, a list, or a dict, which has string keys and is
    read in insertion order. *)
#[warnings="-register-all"]
Inductive any : Type :=
| ANone
| ABool (b : bool)
| ANumber (literal : str)
| AStr (s : str)
| AList (items : list any)
| ADict (entries : list (str * any)).

(** What the interpreter decides: [str(v)] of a value that is not a string,
    and the texts of the [TypeError] of [for x in v] and of [v[key]] with a
    string key, for the values that do not allow them. *)
Record Interpreter : Type := {
  py_str : any -> str;
  not_iterable : any -> str;
  not_subscriptable : any -> str
}.

Module Dynamic.

(** What reading such a value raises: a [KeyError], or one of the other
    exceptions. *)
Inductive lookup_exception : Type :=
| KeyError (key : str)
| Builtin (e : exception).

(** [str(e)]: a [KeyError] shows the [repr] of its key, which for the keys
    read here is the key between single quotes. *)
Definition str_of (e : lookup_exception) : str :=
  match e with
  | KeyError key => "'" ++ key ++ "'"
  | Builtin e => str_of e
  end.

(** A loop that collects one result for each element and stops at the first
    exception. *)
Fixpoint for_each {E A B : Type} (f : A -> E + B) (l : list A) : E + list B :=
  match l with
  | [] => inr []
  | a :: rest =>
      match f a with
      | inl e => inl e
      | inr b =>
          match for_each f rest with
          | inl e => inl e
          | inr bs => inr (b :: bs)
          end
      end
  end.

(** [d[key]] on a dict. *)
Fixpoint getitem (key : str) (entries : list (str * any)) : option any :=
  match entries with
  | [] => None
  | (k, v) :: rest => if str_eqb k key then Some v else getitem key rest
  end.

Section Reading.

Variable py : Interpreter.

(** [f"{v}"] *)
Definition format (v : any) : str :=
  match v with
  | AStr s => s
  | _ => py_str py v
  end.

(** [col[key]] *)
Definition subscript (col : any) (key : str) : lookup_exception + any :=
  match col with
  | ADict entries =>
      match getitem key entries with
      | Some v => inr v
      | None => inl (KeyError key)
      end
  | _ => inl (Builtin (TypeError (not_subscriptable py col)))
  end.

(** [for col in columns]: a list gives its items, a dict its keys, a string
    its characters. *)
Definition iterate (columns : any) : lookup_exception + list any :=
  match columns with
  | AList items => inr items
  | ADict entries => inr (map (fun entry => AStr (fst entry)) entries)
  | AStr s => inr (map (fun c => AStr [c]) s)
  | _ => inl (Builtin (TypeError (not_iterable py columns)))
  end.

(** [v == 'NO'] *)
Definition is_no (v : any) : bool :=
  match v with
  | AStr s => str_eqb s "NO"
  | _ => false
  end.

(** The body of the inner loop. *)
Definition column_definition (col : any) : lookup_exception + str :=
  match subscript col "column_name" with
  | inl e => inl e
  | inr name =>
      match subscript col "data_type" with
      | inl e => inl e
      | inr type =>
          let col_def := format name ++ " (" ++ format type ++ ")" in
          match subscript col "is_nullable" with
          | inl e => inl e
          | inr nullable =>
              inr (if is_no nullable then col_def ++ " NOT NULL" else col_def)
          end
      end
  end.

(** The body of the outer loop. *)
Definition table_part (entry : str * any) : lookup_exception + str :=
  match iterate (snd entry) with
  | inl e => inl e
  | inr columns =>
      match for_each column_definition columns with
      | inl e => inl e
      | inr column_definitions =>
          inr ("Table: " ++ fst entry ++ [LF] ++ "Columns: " ++
               join ", " column_definitions)
      end
  end.

(** [set_database_schema]: the schema context is assigned after the loops,
    so an exception leaves the processor as it was. *)
Definition set_database_schema (self : QueryProcessor)
  (table_info : list (str * any)) : lookup_exception + QueryProcessor :=
  match for_each table_part table_info with
  | inl e => inl e
  | inr schema_parts =>
      inr {| openai_api_key := openai_api_key self;
             schema_context := join [LF; LF] schema_parts |}
  end.

End Reading.



(** An interpreter for the examples, with the wording of CPython 3.10 for
    the errors.  [str(v)] is exact for [None] and the bools; a number is
    shown as its literal, and a list or a dict, whose [repr] is not spelled
    out here, by its brackets. *)
Definition type_name (v : any) : str :=
  match v with
  | ANone => "NoneType"
  | ABool _ => "bool"
  | ANumber literal =>
      if existsb (fun c => contains [c] literal) (".eE" : str)
      then "float" else "int"
  | AStr _ => "str"
  | AList _ => "list"
  | ADict _ => "dict"
  end.

Definition cpython : Interpreter :=
  {| py_str := fun v =>
       match v with
       | ANone => "None" : str
       | ABool true => "True" : str
       | ABool false => "False" : str
       | ANumber literal => literal
       | AStr s => s
       | AList _ => "[...]" : str
       | ADict _ => "{...}" : str
       end;
     not_iterable := fun v => "'" ++ type_name v ++ "' object is not iterable";
     not_subscriptable := fun v =>
       match v with
       | AStr _ => "string indices must be integers" : str
       | AList _ => "list indices must be integers or slices, not str" : str
       | _ => "'" ++ type_name v ++ "' object is not subscriptable"
       end |}.

End Dynamic.

(** ** The callers: [mcp_server.py], [mcp_client.py], [postgres.py] and the
    query form of [streamlit_app.py] *)

(** A value of a JSON body, and a body: a dict with string keys. *)
Inductive json : Type :=
| JBool (b : bool)
| JStr (s : str)
| JStrs (l : list str).

Abbreviation dict := (list (str * json)).

(** [d.get(key, default)] *)
Fixpoint dict_get (key : str) (default : json) (d : dict) : json :=
  match d with
  | [] => default
  | (k, v) :: rest => if str_eqb k key then v else dict_get key default rest
  end.

Module Server.

(** The request models.  Each has a field [task]; the three are told apart
    by a prefix here.  The schema of a request is a [Dict[str, Any]]: the
    model checks that it is a dict with string keys, and nothing about its
    values. *)
Record QueryRequest : Type := {
  query : str;
  schema : list (str * any);
  query_task : str
}.

Record ValidationRequest : Type := {
  sql : str;
  validation_task : str
}.

Record SuggestionRequest : Type := {
  context : str;
  suggestion_task : str
}.

(** What a handler raises: an [HTTPException], which is an [Exception] like
    the others and is caught by [except Exception], or another exception. *)
Inductive raised : Type :=
| HTTPException (status_code : nat) (detail : str)
| Other (e : Dynamic.lookup_exception).

(** A handler returns a body, answered with status 200, or raises. *)
Definition outcome : Type := (raised + dict)%type.

Section Handlers.

Variable rt : Runtime.
Variable py : Interpreter.

(** [str(e)] of an [HTTPException]; it differs between versions of the web
    framework. *)
Variable http_exception_text : nat -> str -> str.

Definition text_of (e : raised) : str :=
  match e with
  | HTTPException status_code detail => http_exception_text status_code detail
  | Other e => Dynamic.str_of e
  end.

(** [except Exception as e: raise HTTPException(status_code=500,
    detail=str(e))], around a body that may have changed the processor. *)
Definition or_500 (r : QueryProcessor * outcome) : QueryProcessor * outcome :=
  match r with
  | (query_processor, inl e) =>
      (query_processor, inl (HTTPException 500 (text_of e)))
  | (query_processor, inr body) => (query_processor, inr body)
  end.

(** [POST /process].  The module-level [query_processor] is the state; a
    schema that [set_database_schema] cannot read makes it raise, inside
    the [try]. *)
Definition process_query (query_processor : QueryProcessor)
  (request : QueryRequest) : QueryProcessor * outcome :=
  or_500
    (if negb (str_eqb (query_task request) "nl_to_sql")
     then (query_processor, inl (HTTPException 400 "Invalid task type"))
     else
       match
         Dynamic.set_database_schema py query_processor (schema request)
       with
       | inl e => (query_processor, inl (Other e))
       | inr query_processor =>
           let '(sql_query, method) :=
             natural_language_to_sql rt query_processor
               (PyStr (query request)) in
           let is_valid := validate_sql sql_query in
           let explanation := get_query_explanation (PyStr sql_query) in
           (query_processor,
            inr [ ("sql" : str, JStr sql_query);
                  ("method" : str, JStr method);
                  ("valid" : str, JBool is_valid);
                  ("explanation" : str, JStr explanation);
                  ("original_query" : str, JStr (query request)) ])
       end).

(** [POST /suggest] *)
Definition get_suggestions (query_processor : QueryProcessor)
  (request : SuggestionRequest) : QueryProcessor * outcome :=
  or_500
    (if negb (str_eqb (suggestion_task request) "suggest_queries")
     then (query_processor, inl (HTTPException 400 "Invalid task type"))
     else
       let suggestions : list str :=
         [ "Show me all sales data" : str;
           "What are the total sales by category?" : str;
           "Show me sales trends over time" : str;
           "Which region has the highest sales?" : str;
           "Show me customer demographics" : str;
           "What's the average age of customers?" : str;
           "Show me top selling products" : str;
           "What are the sales by region?" : str;
           "Show me recent sales transactions" : str;
           "What's the total revenue this month?" : str ] in
       (query_processor,
        inr [ ("suggestions" : str, JStrs suggestions);
              ("context" : str, JStr (context request)) ])).

(** [POST /validate] *)
Definition validate_sql (query_processor : QueryProcessor)
  (request : ValidationRequest) : QueryProcessor * outcome :=
  or_500
    (if negb (str_eqb (validation_task request) "validate_sql")
     then (query_processor, inl (HTTPException 400 "Invalid task type"))
     else
       let is_valid := validate_sql (sql request) in
       (query_processor,
        inr [ ("valid" : str, JBool is_valid);
              ("sql" : str, JStr (sql request)) ])).

End Handlers.

End Server.

Module Postgres.

(** [self.connection] is set or is [None]. *)
Record PostgresDB : Type := { connection : bool }.

Section Database.

(** The rows a query returns. *)
Variable dataframe : Type.

(** Whether the database accepts a connection, and what [pd.read_sql]
    returns or raises for a query text. *)
Variable accepts_connection : bool.
Variable read_sql : str -> result dataframe.

Definition connect (self : PostgresDB) : PostgresDB * bool :=
  if accepts_connection then ({| connection := true |}, true)
  else (self, false).

Definition execute_query (self : PostgresDB) (query : str)
  : PostgresDB * option dataframe :=
  let '(self, connected) :=
    if negb (connection self) then connect self else (self, true) in
  if negb connected then (self, None)
  else
    match
      try_except
        (let query := strip query in
         _ <- match query with
              | [] => raise (ValueError "Empty query provided")
              | _ :: _ => ret tt
              end ;;
         result <- read_sql query ;;
         ret (Some result))
        (fun _ => ret None)
    with
    | inr r => (self, r)
    | inl _ => (self, None)
    end.

End Database.

End Postgres.

Module MCPClient.

Section Client.

(** [session.post(url, json=data, ...)] read up to the status and the JSON
    body of the response; [None] when the request or the reading raises
    (time-out, refused connection, a body that is not JSON).  The URL is
    the base URL followed by the endpoint; only the endpoint is kept. *)
Variable post : str -> dict -> option (nat * dict).

Definition send_request (endpoint : str) (data : dict) : option dict :=
  match post endpoint data with
  | Some (status, result) => if status =? 200 then Some result else None
  | None => None
  end.

(** [result.get("valid", False) if result else False]: an empty dict is
    false as a condition. *)
Definition validate_sql (sql_query : str) : json :=
  let request_data : dict :=
    [ ("sql" : str, JStr sql_query); ("task" : str, JStr "validate_sql") ] in
  match send_request "validate" request_data with
  | Some ((_ :: _) as result) => dict_get "valid" (JBool false) result
  | _ => JBool false
  end.

Definition get_query_suggestions (context : str) : json :=
  let request_data : dict :=
    [ ("context" : str, JStr context);
      ("task" : str, JStr "suggest_queries") ] in
  match send_request "suggest" request_data with
  | Some ((_ :: _) as result) => dict_get "suggestions" (JStrs []) result
  | _ => JStrs []
  end.

Definition process_nl_query (query : str) (schema_info : json) : option dict :=
  let request_data : dict :=
    [ ("query" : str, JStr query); ("schema" : str, schema_info);
      ("task" : str, JStr "nl_to_sql") ] in
  send_request "process" request_data.

End Client.

End MCPClient.

(** ** The query form of the dashboard *)

Module Dashboard.


Section Form.

Variable rt : Runtime.
Variable dataframe : Type.
Variable read_sql : str -> result dataframe.

(** [result_df.empty] *)
Variable empty : dataframe -> bool.



End Form.

End Dashboard.

(* ================================================================== *)
(** * Lemmas and theorems *)

(** ** Characters *)

Ltac all_chars c :=
  destruct c as [[] [] [] [] [] [] [] []]; try reflexivity; try discriminate.

Lemma eqb_char_eq (a b : ascii) : eqb_char a b = true <-> a = b.
Proof. apply Ascii.eqb_eq. Qed.

Lemma eqb_char_refl (a : ascii) : eqb_char a a = true.
Proof. apply Ascii.eqb_refl. Qed.

Lemma eqb_char_neq (a b : ascii) : eqb_char a b = false <-> a <> b.
Proof. apply Ascii.eqb_neq. Qed.

Lemma is_space_lower_char (c : ascii) : is_space (lower_char c) = is_space c.
Proof. all_chars c. Qed.

(** ** [startswith] and [contains] *)

Lemma startswith_spec (s p : str) :
  startswith s p = true <-> exists t, s = p ++ t.
Proof.
  revert s; induction p as [|a p IH]; intros s; simpl.
  - split; [intros _; now exists s | reflexivity].
  - destruct s as [|b s].
    + split; [discriminate | intros [t H]; discriminate].
    + rewrite andb_true_iff, eqb_char_eq, IH. split.
      * intros [-> [t ->]]. now exists t.
      * intros [t H]. injection H as -> ->. split; [reflexivity | now exists t].
Qed.

Lemma startswith_app (p t : str) : startswith (p ++ t) p = true.
Proof. apply startswith_spec. now exists t. Qed.

Lemma contains_spec (m s : str) :
  contains m s = true <-> exists a b, s = a ++ m ++ b.
Proof.
  induction s as [|c s IH].
  - simpl. rewrite orb_false_r, startswith_spec. split.
    + intros [t H]. now exists [], t.
    + intros [a [b H]]. destruct a; [now exists b | discriminate].
  - cbn [contains]. rewrite orb_true_iff, IH, startswith_spec. split.
    + intros [[t H] | [a [b H]]].
      * now exists [], t.
      * exists (c :: a), b. now rewrite H.
    + intros [[|x a] [b H]].
      * left. now exists b.
      * right. injection H as _ ->. now exists a, b.
Qed.

Lemma contains_nil_false (m : str) : m <> [] -> contains m [] = false.
Proof. destruct m; [congruence | reflexivity]. Qed.

(** A block that holds no [sp] cannot start across an [sp]. *)
Lemma startswith_across (sp : ascii) (x y m : str) :
  ~ In sp m -> m <> [] ->
  startswith (x ++ sp :: y) m = startswith x m.
Proof.
  revert m; induction x as [|c x IH]; intros m Hin Hm.
  - destruct m as [|a m]; [congruence|]. simpl.
    replace (eqb_char a sp) with false; [reflexivity|].
    symmetry. apply eqb_char_neq. intros ->. apply Hin. now left.
  - destruct m as [|a m]; [congruence|]. simpl.
    destruct m as [|a' m'].
    + now destruct x.
    + rewrite IH; [reflexivity| |discriminate].
      intros H. apply Hin. now right.
Qed.

Lemma contains_across (sp : ascii) (x y m : str) :
  ~ In sp m -> m <> [] ->
  contains m (x ++ sp :: y) = contains m x || contains m y.
Proof.
  intros Hin Hm. induction x as [|c x IH].
  - cbn [app contains].
    change (sp :: y) with ([] ++ sp :: y) at 1.
    rewrite (startswith_across sp [] y Hin Hm).
    destruct m; [congruence | reflexivity].
  - change ((c :: x) ++ sp :: y) with (c :: (x ++ sp :: y)).
    cbn [contains]. rewrite IH.
    change (c :: x ++ sp :: y) with ((c :: x) ++ sp :: y).
    rewrite (startswith_across sp (c :: x) y Hin Hm).
    now rewrite orb_assoc.
Qed.

Lemma contains_app_l (m x y : str) :
  contains m x = true -> contains m (x ++ y) = true.
Proof.
  rewrite !contains_spec. intros [a [b ->]]. exists a, (b ++ y).
  now rewrite <- !app_assoc.
Qed.

Lemma contains_cons (m : str) (c : ascii) (s : str) :
  contains m s = true -> contains m (c :: s) = true.
Proof. intros H. cbn [contains]. rewrite H. apply orb_true_r. Qed.

(** ** [split] and [join] *)

Lemma split_cons (c : ascii) (t : str) :
  split (c :: t) =
  if is_space c then split t
  else match t with
       | [] => [[c]]
       | d :: _ =>
           if is_space d then [c] :: split t
           else match split t with
                | w :: ws => (c :: w) :: ws
                | [] => [[c]]
                end
       end.
Proof. reflexivity. Qed.

Lemma split_nonspace_cons (c : ascii) (t : str) :
  is_space c = false -> split (c :: t) <> [].
Proof.
  intros Hc. rewrite split_cons, Hc.
  destruct t as [|d t]; [discriminate|].
  destruct (is_space d); [discriminate|].
  destruct (split (d :: t)); discriminate.
Qed.

(** What [split] computes: the first word sits behind leading white space
    and is followed by white space or by the end; the other words are the
    words of the rest. *)
Lemma split_first (s : str) (w : str) (ws : list str) :
  split s = w :: ws ->
  exists a r,
    s = a ++ w ++ r /\ Forall (fun c => is_space c = true) a /\ is_word w /\
    split r = ws /\ (r = [] \/ exists d r', r = d :: r' /\ is_space d = true).
Proof.
  revert w ws; induction s as [|c t IH]; intros w ws H; [discriminate|].
  rewrite split_cons in H. destruct (is_space c) eqn:Hc.
  - destruct (IH _ _ H) as (a & r & -> & Ha & Hw & Hr & Hd).
    exists (c :: a), r. split; [reflexivity|].
    split; [now constructor|]. split; [exact Hw|]. split; assumption.
  - assert (Hw : is_word [c]) by (split; [discriminate | now constructor]).
    destruct t as [|d t'].
    + injection H as <- <-. exists [], [].
      split; [reflexivity|]. split; [constructor|]. split; [exact Hw|].
      split; [reflexivity | now left].
    + destruct (is_space d) eqn:Hd.
      * injection H as <- <-. exists [], (d :: t').
        split; [reflexivity|]. split; [constructor|]. split; [exact Hw|].
        split; [reflexivity | right; now exists d, t'].
      * destruct (split (d :: t')) as [|w0 ws0] eqn:E.
        { now apply split_nonspace_cons in E. }
        injection H as <- <-.
        destruct (IH _ _ eq_refl) as (a & r & Ht & Ha & [Hw0 Fw0] & Hr & Hd').
        destruct a as [|x a].
        2:{ injection Ht as <- _. inversion Ha; congruence. }
        exists [], r. simpl in Ht. rewrite Ht.
        split; [reflexivity|]. split; [constructor|].
        split; [split; [discriminate | now constructor]|].
        split; assumption.
Qed.

Lemma split_words (s : str) : Forall is_word (split s).
Proof.
  induction s as [|c t IH]; [constructor|].
  rewrite split_cons. destruct (is_space c) eqn:Hc; [assumption|].
  assert (Hw : is_word [c]) by (split; [discriminate | now constructor]).
  destruct t as [|d t']; [now constructor|].
  destruct (is_space d) eqn:Hd; [now constructor|].
  destruct (split (d :: t')) as [|w ws]; [now constructor|].
  inversion IH as [|? ? [Hne Hf] Hws]; subst. constructor; [|assumption].
  split; [discriminate | now constructor].
Qed.

(** A word in front of white space, or of the end, is the first word. *)
Lemma split_word_app (w r : str) :
  is_word w ->
  (r = [] \/ exists d r', r = d :: r' /\ is_space d = true) ->
  split (w ++ r) = w :: split r.
Proof.
  intros [Hne Hf] Hr. induction w as [|c w IH]; [congruence|].
  inversion Hf as [|? ? Hc Hf']; subst.
  change ((c :: w) ++ r) with (c :: (w ++ r)). rewrite split_cons, Hc.
  destruct w as [|c' w'].
  - simpl. destruct Hr as [-> | (d & r' & -> & Hd)]; [reflexivity|].
    now rewrite Hd.
  - inversion Hf' as [|? ? Hc' _]; subst.
    change ((c' :: w') ++ r) with (c' :: (w' ++ r)) in *.
    cbv iota. rewrite Hc'. rewrite IH; [reflexivity | discriminate | assumption].
Qed.

Lemma join_cons2 (sep w w' : str) (ws : list str) :
  join sep (w :: w' :: ws) = w ++ sep ++ join sep (w' :: ws).
Proof. reflexivity. Qed.

Lemma split_join (ws : list str) :
  Forall is_word ws -> split (join [SP] ws) = ws.
Proof.
  induction ws as [|w ws IH]; intros H; [reflexivity|].
  inversion H as [|? ? Hw Hws]; subst.
  destruct ws as [|w' ws'].
  - simpl. rewrite <- (app_nil_r w) at 1.
    rewrite split_word_app; auto.
  - rewrite join_cons2. rewrite split_word_app; auto.
    + change ([SP] ++ join [SP] (w' :: ws')) with (SP :: join [SP] (w' :: ws')).
      rewrite split_cons. change (is_space SP) with true. cbv iota.
      now rewrite IH.
    + right. now exists SP, (join [SP] (w' :: ws')).
Qed.

Lemma collapse_whitespace_idem (s : str) :
  collapse_whitespace (collapse_whitespace s) = collapse_whitespace s.
Proof.
  unfold collapse_whitespace. now rewrite split_join by apply split_words.
Qed.

(** ** [strip] after [collapse_whitespace] changes nothing *)

Lemma lstrip_nonspace (c : ascii) (t : str) :
  is_space c = false -> lstrip (c :: t) = c :: t.
Proof. intros H. simpl. now rewrite H. Qed.

Lemma rstrip_snoc (t : str) (c : ascii) :
  is_space c = false -> rstrip (t ++ [c]) = t ++ [c].
Proof.
  intros H. unfold rstrip. rewrite rev_app_distr.
  change (rev [c] ++ rev t) with (c :: rev t).
  rewrite lstrip_nonspace by assumption.
  change (rev (c :: rev t)) with (rev (rev t) ++ [c]).
  now rewrite rev_involutive.
Qed.

Lemma word_last (w : str) :
  is_word w -> exists t c, w = t ++ [c] /\ is_space c = false.
Proof.
  intros [Hne Hf]. destruct (exists_last Hne) as (t & c & ->).
  exists t, c. split; [reflexivity|].
  rewrite Forall_forall in Hf. apply Hf. apply in_or_app. right. now left.
Qed.

Lemma join_words_last (w : str) (ws : list str) :
  Forall is_word (w :: ws) ->
  exists t c, join [SP] (w :: ws) = t ++ [c] /\ is_space c = false.
Proof.
  revert w; induction ws as [|w' ws IH]; intros w H;
    inversion H as [|? ? Hw Hws]; subst.
  - now apply word_last.
  - destruct (IH w' Hws) as (t & c & E & Hc).
    exists (w ++ [SP] ++ t), c. rewrite join_cons2, E.
    split; [now rewrite <- !app_assoc | assumption].
Qed.

Lemma join_words_first (w : str) (ws : list str) :
  is_word w ->
  exists c t, join [SP] (w :: ws) = c :: t /\ is_space c = false.
Proof.
  intros [Hne Hf]. destruct w as [|c w]; [congruence|].
  inversion Hf; subst. destruct ws as [|w' ws].
  - now exists c, w.
  - exists c, (w ++ [SP] ++ join [SP] (w' :: ws)). now split.
Qed.

Lemma strip_join_words (ws : list str) :
  Forall is_word ws -> strip (join [SP] ws) = join [SP] ws.
Proof.
  intros H. destruct ws as [|w ws]; [reflexivity|].
  unfold strip.
  destruct (join_words_last H) as (t & c & E & Hc).
  rewrite E at 1. rewrite rstrip_snoc by assumption. rewrite <- E.
  inversion H as [|? ? Hw _]; subst.
  destruct (join_words_first ws Hw) as (c' & t' & E' & Hc').
  rewrite E'. now apply lstrip_nonspace.
Qed.

Lemma strip_collapse_whitespace (s : str) :
  strip (collapse_whitespace s) = collapse_whitespace s.
Proof. apply strip_join_words, split_words. Qed.

(** ** Deleting a marker: [sub_marker] *)

Lemma length_drop_lf (s : str) : length (drop_lf s) <= length s.
Proof. destruct s as [|d r]; simpl; [lia|]. destruct (eqb_char d LF); simpl; lia. Qed.

Lemma sub_marker_from_skip (m : str) (k : nat) (s : str) :
  sub_marker_from m k s = sub_marker m (skipn k s).
Proof.
  revert k; induction s as [|c t IH]; intros k.
  - now rewrite skipn_nil.
  - destruct k as [|k]; [reflexivity|]. simpl. apply IH.
Qed.

(** The scan, one step at a time. *)
Lemma sub_marker_cons (m : str) (c : ascii) (t : str) :
  m <> [] ->
  sub_marker m (c :: t) =
  if startswith (c :: t) m
  then sub_marker m (drop_lf (skipn (length m) (c :: t)))
  else c :: sub_marker m t.
Proof.
  intros Hm. unfold sub_marker at 1. cbn [sub_marker_from].
  destruct (startswith (c :: t) m); [|reflexivity].
  rewrite sub_marker_from_skip. f_equal.
  destruct m as [|a m]; [congruence|].
  cbn [length skipn]. rewrite Nat.sub_succ, Nat.sub_0_r.
  rewrite Nat.add_comm, <- skipn_skipn.
  destruct (skipn (length m) t) as [|d r]; [reflexivity|].
  simpl. now destruct (eqb_char d LF).
Qed.

(** Where the marker does not occur, nothing is deleted. *)
Lemma sub_marker_absent (m s : str) :
  contains m s = false -> sub_marker m s = s.
Proof.
  unfold sub_marker. induction s as [|c t IH]; intros H; [reflexivity|].
  cbn [contains] in H. apply orb_false_iff in H as [H1 H2].
  cbn [sub_marker_from]. rewrite H1. now rewrite IH.
Qed.

Lemma fence_literal : fence = "```".
Proof. reflexivity. Qed.

Lemma sub_fence_head2 (t : str) :
  startswith (sub_marker fence t) [BT; BT] = true ->
  startswith t [BT; BT] = true.
Proof.
  destruct t as [|a t1]; [discriminate|].
  rewrite sub_marker_cons by discriminate.
  destruct (startswith (a :: t1) fence) eqn:E.
  - intros _. apply startswith_spec in E as [r E]. rewrite E. reflexivity.
  - destruct t1 as [|b t2]; [simpl; rewrite andb_false_r; discriminate|].
    rewrite sub_marker_cons by discriminate.
    destruct (startswith (b :: t2) fence) eqn:E2.
    + apply startswith_spec in E2 as [r E2]. injection E2 as -> ->.
      cbn [startswith]. intros H. apply andb_true_iff in H as [H _].
      now rewrite H, eqb_char_refl.
    + cbn [startswith]. intros H. exact H.
Qed.

(** After the second pass no code-fence marker is left. *)
Lemma sub_fence_clean (s : str) : contains fence (sub_marker fence s) = false.
Proof.
  remember (length s) as n eqn:Hn.
  assert (Hle : length s <= n) by lia. clear Hn.
  revert s Hle; induction n as [|n IH]; intros s Hle.
  - destruct s; [reflexivity | simpl in Hle; lia].
  - destruct s as [|c t]; [reflexivity|].
    rewrite sub_marker_cons by discriminate.
    destruct (startswith (c :: t) fence) eqn:E.
    + apply IH. pose proof (length_drop_lf (skipn (length fence) (c :: t))) as L.
      rewrite length_skipn in L. simpl in *. lia.
    + cbn [contains]. rewrite IH by (simpl in Hle; lia).
      rewrite orb_false_r.
      destruct (startswith (c :: sub_marker fence t) fence) eqn:E'; [|reflexivity].
      exfalso. unfold fence at 2 in E'. cbn [startswith] in E'.
      apply andb_true_iff in E' as [Hc E'].
      apply eqb_char_eq in Hc. subst c.
      assert (H2 : startswith (sub_marker fence t) [BT; BT] = true) by exact E'.
      apply sub_fence_head2 in H2.
      unfold fence in E. cbn [startswith] in E.
      rewrite eqb_char_refl in E. cbn [startswith andb] in E, H2. congruence.
Qed.

(** ** An occurrence in the collapsed text is one in the text *)

Lemma contains_join (m : str) (ws : list str) :
  ~ In SP m -> m <> [] ->
  contains m (join [SP] ws) = existsb (contains m) ws.
Proof.
  intros Hin Hm. induction ws as [|w ws IH].
  - simpl. now apply contains_nil_false.
  - destruct ws as [|w' ws'].
    + simpl. now rewrite orb_false_r.
    + rewrite join_cons2. change ([SP] ++ ?x) with (SP :: x).
      rewrite contains_across by assumption. rewrite IH. reflexivity.
Qed.

Lemma contains_split (m s : str) :
  existsb (contains m) (split s) = true -> contains m s = true.
Proof.
  remember (length s) as n eqn:Hn.
  assert (Hle : length s <= n) by lia. clear Hn.
  revert s Hle; induction n as [|n IH]; intros s Hle H.
  - destruct s; [discriminate | simpl in Hle; lia].
  - destruct (split s) as [|w ws] eqn:E; [discriminate|].
    destruct (split_first _ E) as (a & r & -> & _ & [Hne _] & Hr & _).
    simpl in H. apply orb_true_iff in H as [H | H].
    + apply contains_spec in H as (x & y & ->). apply contains_spec.
      exists (a ++ x), (y ++ r). now rewrite <- !app_assoc.
    + rewrite <- Hr in H. apply IH in H.
      * apply contains_spec in H as (x & y & ->). apply contains_spec.
        exists (a ++ w ++ x), y. now rewrite <- !app_assoc.
      * rewrite !length_app in Hle. destruct w; [congruence|]. simpl in Hle. lia.
Qed.

Lemma contains_collapse_whitespace (m s : str) :
  ~ In SP m -> m <> [] ->
  contains m s = false -> contains m (collapse_whitespace s) = false.
Proof.
  intros Hin Hm H. unfold collapse_whitespace.
  rewrite contains_join by assumption.
  destruct (existsb (contains m) (split s)) eqn:E; [|reflexivity].
  apply contains_split in E. congruence.
Qed.

(** ** Counting a character through the cleaning steps *)

Lemma count_app (c : ascii) (x y : str) :
  count c (x ++ y) = count c x + count c y.
Proof. unfold count. now rewrite filter_app, length_app. Qed.

Lemma count_cons (c d : ascii) (s : str) :
  count c (d :: s) = (if eqb_char c d then 1 else 0) + count c s.
Proof. unfold count. simpl. now destruct (eqb_char c d). Qed.

Lemma count_absent (c : ascii) (s : str) : ~ In c s -> count c s = 0.
Proof.
  induction s as [|d s IH]; intros H; [reflexivity|].
  rewrite count_cons, IH by (intros K; apply H; now right).
  replace (eqb_char c d) with false; [reflexivity|].
  symmetry. apply eqb_char_neq. intros ->. apply H. now left.
Qed.

Lemma count_drop_lf (c : ascii) (s : str) :
  c <> LF -> count c (drop_lf s) = count c s.
Proof.
  intros Hc. destruct s as [|d r]; [reflexivity|]. simpl.
  destruct (eqb_char d LF) eqn:E; [|reflexivity].
  apply eqb_char_eq in E. subst d. rewrite count_cons.
  replace (eqb_char c LF) with false; [reflexivity|].
  symmetry. now apply eqb_char_neq.
Qed.

Lemma skipn_length_app (m r : str) : skipn (length m) (m ++ r) = r.
Proof. induction m; [reflexivity | assumption]. Qed.

Lemma count_sub_marker (c : ascii) (m s : str) :
  m <> [] -> ~ In c m -> c <> LF ->
  count c (sub_marker m s) = count c s.
Proof.
  intros Hm Hin Hc.
  remember (length s) as n eqn:Hn.
  assert (Hle : length s <= n) by lia. clear Hn.
  revert s Hle; induction n as [|n IH]; intros s Hle.
  - destruct s; [reflexivity | simpl in Hle; lia].
  - destruct s as [|d t]; [reflexivity|].
    rewrite sub_marker_cons by assumption.
    destruct (startswith (d :: t) m) eqn:E.
    + apply startswith_spec in E as [r E]. rewrite E, skipn_length_app.
      rewrite IH, count_drop_lf, count_app, (@count_absent c m Hin); auto.
      pose proof (length_drop_lf r) as L.
      assert (length (d :: t) = length m + length r)
        by now rewrite E, length_app.
      destruct m; [congruence|]. simpl in *. lia.
    + rewrite !count_cons, IH; [reflexivity | simpl in Hle; lia].
Qed.

Lemma count_join (c : ascii) (ws : list str) :
  c <> SP -> count c (join [SP] ws) = list_sum (map (count c) ws).
Proof.
  intros Hc. induction ws as [|w ws IH]; [reflexivity|].
  destruct ws as [|w' ws'].
  - simpl. lia.
  - rewrite join_cons2, !count_app, IH.
    rewrite (@count_absent c [SP]); [reflexivity|].
    intros [H|[]]. now apply Hc.
Qed.

Lemma count_split (c : ascii) (s : str) :
  is_space c = false -> list_sum (map (count c) (split s)) = count c s.
Proof.
  intros Hc.
  remember (length s) as n eqn:Hn.
  assert (Hle : length s <= n) by lia. clear Hn.
  revert s Hle; induction n as [|n IH]; intros s Hle.
  - destruct s; [reflexivity | simpl in Hle; lia].
  - destruct (split s) as [|w ws] eqn:E.
    + (* no word: only white space *)
      clear IH Hle. induction s as [|d t IHt]; [reflexivity|].
      destruct (is_space d) eqn:Hd.
      * rewrite split_cons, Hd in E.
        rewrite count_cons, <- IHt by assumption.
        replace (eqb_char c d) with false; [reflexivity|].
        symmetry. apply eqb_char_neq. congruence.
      * exfalso. now apply split_nonspace_cons in E.
    + destruct (split_first _ E) as (a & r & -> & Ha & [Hne _] & Hr & _).
      simpl. rewrite <- Hr, IH.
      * rewrite !count_app. rewrite (@count_absent c a); [reflexivity|].
        intros K. rewrite Forall_forall in Ha. apply Ha in K. congruence.
      * rewrite !length_app in Hle. destruct w; [congruence|]. simpl in Hle. lia.
Qed.

Lemma count_collapse_whitespace (c : ascii) (s : str) :
  is_space c = false -> count c (collapse_whitespace s) = count c s.
Proof.
  intros Hc. unfold collapse_whitespace.
  rewrite count_join; [now apply count_split|].
  intros ->. discriminate.
Qed.

(** ** The matcher decides [matches] *)

Lemma nullable_spec (r : regex) : nullable r = true <-> matches r [].
Proof.
  induction r; simpl.
  - split; intros H; [discriminate | inversion H].
  - split; intros H; [constructor | reflexivity].
  - split; intros H; [discriminate | inversion H].
  - split; intros H; [discriminate | inversion H].
  - rewrite andb_true_iff, IHr1, IHr2. split.
    + intros [H1 H2]. change (@nil ascii) with (@nil ascii ++ []).
      now constructor.
    + intros H. inversion H as [| | | ? ? s1 s2 M1 M2 | | | |]; subst.
      match goal with
      | E : _ ++ _ = [] |- _ => apply app_eq_nil in E as [-> ->]
      end.
      now split.
  - rewrite orb_true_iff, IHr1, IHr2. split.
    + intros [H|H]; [now apply MAltL | now apply MAltR].
    + intros H. inversion H; subst; [now left | now right].
  - split; intros H; [constructor | reflexivity].
Qed.

(** A non-empty match of [r*] starts with a non-empty match of [r]. *)
Lemma star_cons (r : regex) (x : ascii) (s : str) :
  matches (Star r) (x :: s) ->
  exists s1 s2, s = s1 ++ s2 /\ matches r (x :: s1) /\ matches (Star r) s2.
Proof.
  intros H. remember (Star r) as r' eqn:Er. remember (x :: s) as xs eqn:Es.
  revert s Es.
  induction H as [| | | | | | |r0 s1 s2 M1 _ M2 IH2]; intros t Es;
    try discriminate.
  injection Er as ->. destruct s1 as [|y s1].
  - simpl in Es. apply IH2; [reflexivity | assumption].
  - injection Es as -> <-. now exists s1, s2.
Qed.

Lemma deriv_spec (r : regex) (x : ascii) (s : str) :
  matches (deriv x r) s <-> matches r (x :: s).
Proof.
  revert s; induction r; intros s; simpl.
  - split; intros H; inversion H.
  - split; intros H; inversion H.
  - destruct (chr_match c x) eqn:E; split; intros H; inversion H; subst.
    + now constructor.
    + constructor.
    + congruence.
  - destruct (dot_match x) eqn:E; split; intros H; inversion H; subst.
    + now constructor.
    + constructor.
    + congruence.
  - assert (L : matches (Cat (deriv x r1) r2) s -> matches (Cat r1 r2) (x :: s)).
    { intros H. inversion H as [| | | ? ? s1 s2 M1 M2 | | | |]; subst.
      change (x :: s1 ++ s2) with ((x :: s1) ++ s2).
      constructor; [now apply IHr1 | assumption]. }
    assert (R : matches (Cat r1 r2) (x :: s) ->
                matches (Cat (deriv x r1) r2) s \/
                (nullable r1 = true /\ matches (deriv x r2) s)).
    { intros H. inversion H as [| | | ? ? s1 s2 M1 M2 | | | |]; subst.
      destruct s1 as [|y s1].
      - right. simpl in *. subst s2.
        split; [now apply nullable_spec | now apply IHr2].
      - match goal with E : _ ++ _ = _ :: _ |- _ => injection E as -> <- end.
        left. constructor; [now apply IHr1 | assumption]. }
    destruct (nullable r1) eqn:N; split; intros H.
    + inversion H; subst; [now apply L|].
      change (x :: s) with ([] ++ x :: s).
      constructor; [now apply nullable_spec | now apply IHr2].
    + destruct (R H) as [H'|[_ H']]; [now apply MAltL | now apply MAltR].
    + now apply L.
    + destruct (R H) as [H'|[K _]]; [assumption | discriminate].
  - split; intros H; inversion H; subst;
      solve [apply MAltL; now apply IHr1 | apply MAltR; now apply IHr2].
  - split; intros H.
    + inversion H as [| | | ? ? s1 s2 M1 M2 | | | |]; subst.
      change (x :: s1 ++ s2) with ((x :: s1) ++ s2).
      constructor; [now apply IHr | assumption].
    + apply star_cons in H as (s1 & s2 & -> & M1 & M2).
      constructor; [now apply IHr | assumption].
Qed.

Theorem accepts_spec (r : regex) (s : str) :
  accepts r s = true <-> matches r s.
Proof.
  revert r; induction s as [|x s IH]; intros r; simpl.
  - apply nullable_spec.
  - rewrite IH. apply deriv_spec.
Qed.

Theorem re_match_spec (r : regex) (s : str) :
  re_match r s = true <-> exists p t, s = p ++ t /\ matches r p.
Proof.
  revert r; induction s as [|x s IH]; intros r; cbn [re_match].
  - rewrite orb_false_r, nullable_spec. split.
    + intros H. now exists [], [].
    + intros (p & t & E & M). symmetry in E.
      apply app_eq_nil in E as [-> _]. assumption.
  - rewrite orb_true_iff, nullable_spec, IH. split.
    + intros [H | (p & t & -> & M)].
      * now exists [], (x :: s).
      * exists (x :: p), t. split; [reflexivity | now apply deriv_spec].
    + intros (p & t & E & M). destruct p as [|y p]; [now left|].
      injection E as -> ->. right. exists p, t.
      split; [reflexivity | now apply deriv_spec].
Qed.

Theorem re_search_spec (r : regex) (s : str) :
  re_search r s = true <-> exists a p t, s = a ++ p ++ t /\ matches r p.
Proof.
  induction s as [|x s IH]; cbn [re_search].
  - rewrite orb_false_r, re_match_spec. split.
    + intros (p & t & E & M). now exists [], p, t.
    + intros (a & p & t & E & M). destruct a; [|discriminate].
      now exists p, t.
  - rewrite orb_true_iff, IH, re_match_spec. split.
    + intros [(p & t & E & M) | (a & p & t & -> & M)].
      * now exists [], p, t.
      * now exists (x :: a), p, t.
    + intros (a & p & t & E & M). destruct a as [|y a].
      * left. now exists p, t.
      * injection E as -> ->. right. now exists a, p, t.
Qed.

Lemma chr_match_space (c x : ascii) :
  chr_match c x = true -> is_space x = is_space c.
Proof.
  unfold chr_match. intros H. apply eqb_char_eq in H.
  now rewrite <- (is_space_lower_char x), <- H, is_space_lower_char.
Qed.

Lemma needs_ink_spec (r : regex) (s : str) :
  needs_ink r = true -> matches r s ->
  exists x, In x s /\ is_space x = false.
Proof.
  intros N M. induction M; simpl in N; try discriminate.
  - exists x. split; [now left|].
    rewrite (chr_match_space _ _ H). now apply negb_true_iff.
  - apply orb_true_iff in N as [N|N].
    + destruct (IHM1 N) as (x & I & S). exists x.
      split; [apply in_or_app; now left | assumption].
    + destruct (IHM2 N) as (x & I & S). exists x.
      split; [apply in_or_app; now right | assumption].
  - apply andb_true_iff in N as [N _]. now apply IHM.
  - apply andb_true_iff in N as [_ N]. now apply IHM.
Qed.

(** ** The source at a few inputs *)

Example split_lines :
  split "  SELECT  *
 FROM t " = [ "SELECT" : str; "*" : str; "FROM" : str; "t" : str ].
Proof. reflexivity. Qed.

Example sub_marker_fences :
  sub_marker "```" (sub_marker "```sql" "```sql
SELECT 1
```") = ("SELECT 1
" : str).
Proof. reflexivity. Qed.

Example match_is_anchored_search_is_not :
  re_match (seq [any_star; lit "all sales"; any_star]) "Show me ALL Sales" = true /\
  re_match (seq [any_star; lit "all sales"; any_star]) "first line
all sales" = false /\
  re_search (seq [any_star; lit "all"; any_star; lit "sales"]) "first line
all the sales" = true /\
  re_search (seq [any_star; lit "all"; any_star; lit "sales"]) "all
sales" = false.
Proof. repeat split. Qed.

Example schema_context_of_one_table :
  schema_context
    (set_database_schema (init None)
       [ ("sales" : str,
          [ {| column_name := "id"; data_type := "integer"; is_nullable := "NO" |};
            {| column_name := "price"; data_type := "numeric"; is_nullable := "YES" |} ]) ]) =
  ("Table: sales
Columns: id (integer) NOT NULL, price (numeric)" : str).
Proof. reflexivity. Qed.

Example resolve_scenarios :
  natural_language_to_sql remote_down without_key (PyStr "Show me all sales data") =
  ("SELECT * FROM sales ORDER BY sale_date DESC" : str, "Pattern matching" : str) /\
  fst (natural_language_to_sql remote_down without_key
         (PyStr "What are the total sales by category?")) =
  ("SELECT category, SUM(price * quantity) as total_sales FROM sales GROUP BY category ORDER BY total_sales DESC" : str) /\
  natural_language_to_sql remote_down with_key (PyStr "count the customers") =
  ("SELECT * FROM customers ORDER BY registration_date DESC" : str, "Pattern matching" : str) /\
  natural_language_to_sql (remote_answers "drop table sales") with_key
    (PyStr "how many cities") =
  ("SELECT * FROM sales LIMIT 10" : str, "Default fallback" : str).
Proof. repeat split; vm_compute; reflexivity. Qed.

Example clean_fenced :
  clean_sql_query "```sql
select  *   from t
```" = inr ("select * from t" : str).
Proof. reflexivity. Qed.

Example clean_drop :
  clean_sql_query "drop table t" = inl (ValueError "Potentially dangerous SQL operation detected: DROP").
Proof. reflexivity. Qed.

Example validate_examples :
  validate_sql "SELECT * FROM t WHERE (a = 1" = false /\
  validate_sql "SELECT * FROM t WHERE (a = 1)" = true /\
  validate_sql " select 1" = true.
Proof. repeat split. Qed.

(** ** The sanitizer *)

Lemma begins_with_select_iff (t : str) :
  begins_with_select t <-> startswith (upper t) "SELECT" = true.
Proof. unfold begins_with_select. now rewrite startswith_spec. Qed.

Lemma mentions_keyword_iff (t : str) :
  mentions_keyword t <->
  exists kw, In kw dangerous_keywords /\ contains kw (upper t) = true.
Proof.
  unfold mentions_keyword. split.
  - intros (kw & a & b & I & E). exists kw. split; [assumption|].
    apply contains_spec. now exists a, b.
  - intros (kw & I & C). apply contains_spec in C as (a & b & E).
    now exists kw, a, b.
Qed.

(** The loop raises for the first keyword of the list that occurs, unless
    the text begins with SELECT. *)
Lemma check_keywords_select (kws : list str) (u : str) :
  startswith u "SELECT" = true -> check_keywords kws u = inr tt.
Proof.
  intros H. induction kws as [|kw kws IH]; [reflexivity|].
  cbn [check_keywords]. now rewrite H, andb_false_r.
Qed.

Lemma check_keywords_absent (kws : list str) (u : str) :
  (forall kw, In kw kws -> contains kw u = false) ->
  check_keywords kws u = inr tt.
Proof.
  induction kws as [|kw kws IH]; intros H; [reflexivity|].
  cbn [check_keywords]. rewrite (H kw) by now left.
  apply IH. intros k K. apply H. now right.
Qed.

Lemma check_keywords_raises (kws : list str) (u : str) :
  (exists kw, In kw kws /\ contains kw u = true) ->
  startswith u "SELECT" = false ->
  exists kw, In kw kws /\ contains kw u = true /\
             check_keywords kws u = inl (ValueError (dangerous_message ++ kw)).
Proof.
  intros (k & I & C) S. induction kws as [|kw kws IH]; [contradiction|].
  cbn [check_keywords]. rewrite S. cbn [negb]. rewrite andb_true_r.
  destruct (contains kw u) eqn:E.
  - exists kw. split; [now left | now split].
  - destruct I as [-> | I]; [congruence|].
    destruct (IH I) as (kw' & I' & C' & R).
    exists kw'. split; [now right | now split].
Qed.

Lemma clean_sql_query_unfold (raw : str) :
  clean_sql_query raw =
  (_ <- check_keywords dangerous_keywords (upper (cleaned_text raw)) ;;
   ret (cleaned_text raw)).
Proof.
  unfold clean_sql_query.
  change (join " " (split (sub_marker "```" (sub_marker "```sql" raw))))
    with (cleaned_text raw).
  destruct (check_keywords dangerous_keywords (upper (cleaned_text raw)));
    [reflexivity|].
  cbn [bind]. unfold cleaned_text. now rewrite strip_collapse_whitespace.
Qed.

Lemma clean_sql_query_select (raw : str) :
  startswith (upper (cleaned_text raw)) "SELECT" = true ->
  clean_sql_query raw = inr (cleaned_text raw).
Proof.
  intros H. rewrite clean_sql_query_unfold.
  now rewrite check_keywords_select.
Qed.

Lemma clean_sql_query_inv (raw y : str) :
  clean_sql_query raw = inr y ->
  y = cleaned_text raw /\
  check_keywords dangerous_keywords (upper (cleaned_text raw)) = inr tt.
Proof.
  rewrite clean_sql_query_unfold.
  destruct (check_keywords dangerous_keywords (upper (cleaned_text raw)))
    as [e|[]]; [discriminate|].
  cbn. intros H. injection H as <-. now split.
Qed.

(** No code-fence marker is left in the cleaned text. *)
Lemma strip_code_fences_clean (raw : str) :
  contains fence (strip_code_fences raw) = false.
Proof. apply sub_fence_clean. Qed.

Lemma cleaned_text_no_fence (raw : str) :
  contains fence (cleaned_text raw) = false.
Proof.
  apply contains_collapse_whitespace.
  - intros [H|[H|[H|[]]]]; discriminate.
  - discriminate.
  - apply strip_code_fences_clean.
Qed.

Lemma contains_longer (m e s : str) :
  contains m s = false -> contains (m ++ e) s = false.
Proof.
  intros H. destruct (contains (m ++ e) s) eqn:C; [|reflexivity].
  apply contains_spec in C as (a & b & ->).
  assert (K : contains m (a ++ (m ++ e) ++ b) = true).
  { apply contains_spec. exists a, (e ++ b). now rewrite <- !app_assoc. }
  congruence.
Qed.

(** A cleaned text is a fixed point of the cleaning steps. *)
Lemma cleaned_text_fixed (raw : str) :
  cleaned_text (cleaned_text raw) = cleaned_text raw.
Proof.
  pose proof (cleaned_text_no_fence raw) as F.
  unfold cleaned_text at 1. unfold strip_code_fences.
  rewrite (@sub_marker_absent "```sql" (cleaned_text raw)).
  - rewrite (@sub_marker_absent "```" (cleaned_text raw)) by exact F.
    apply collapse_whitespace_idem.
  - now apply (@contains_longer fence "sql").
Qed.

Lemma clean_sql_query_fixed (x y : str) :
  clean_sql_query x = inr y -> clean_sql_query y = inr y.
Proof.
  intros H. apply clean_sql_query_inv in H as [-> C].
  rewrite clean_sql_query_unfold, cleaned_text_fixed. now rewrite C.
Qed.

(** Parentheses are not touched by the cleaning steps. *)
Lemma count_cleaned_text (c : ascii) (raw : str) :
  is_space c = false -> ~ In c ("```sql" : str) ->
  count c (cleaned_text raw) = count c raw.
Proof.
  intros S N. unfold cleaned_text, strip_code_fences.
  assert (L : c <> LF) by (intros ->; discriminate).
  rewrite count_collapse_whitespace by assumption.
  rewrite !count_sub_marker; auto; try discriminate.
  intros K. apply N. simpl in *. tauto.
Qed.

(** What [validate_sql] computes, in one expression. *)
Lemma validate_sql_eq (sql : str) :
  validate_sql sql =
  startswith (upper (cleaned_text sql)) "SELECT" &&
  (count LPAREN sql =? count RPAREN sql).
Proof.
  unfold validate_sql. rewrite clean_sql_query_unfold.
  destruct (startswith (upper (cleaned_text sql)) "SELECT") eqn:S.
  - rewrite check_keywords_select by assumption. cbn [bind ret try_except].
    rewrite S. cbn [negb].
    rewrite !count_cleaned_text;
      try reflexivity; try (intros K; simpl in K; intuition discriminate).
    now destruct (count LPAREN sql =? count RPAREN sql).
  - destruct (check_keywords dangerous_keywords (upper (cleaned_text sql)));
      cbn [bind ret try_except]; [reflexivity|].
    now rewrite S.
Qed.

(** ** Claims about the sanitizer and the advisory check *)

(** C5.  [clean_sql_query] first deletes the code-fence markers (none is
    left) and turns the text into its words joined by single spaces; then
    it raises [ValueError] exactly when the upper-cased cleaned text
    contains one of the seven keywords and does not begin with SELECT, and
    otherwise returns the cleaned text. *)
Theorem clean_sql_query_contract (raw : str) :
  contains fence (strip_code_fences raw) = false /\
  (exists ws, Forall is_word ws /\ cleaned_text raw = join [SP] ws) /\
  (mentions_keyword (cleaned_text raw) /\
   ~ begins_with_select (cleaned_text raw) ->
   exists kw, In kw dangerous_keywords /\
     clean_sql_query raw = inl (ValueError (dangerous_message ++ kw))) /\
  (~ (mentions_keyword (cleaned_text raw) /\
      ~ begins_with_select (cleaned_text raw)) ->
   clean_sql_query raw = inr (cleaned_text raw)).
Proof.
  split; [apply strip_code_fences_clean|].
  split; [exists (split (strip_code_fences raw)); split;
          [apply split_words | reflexivity]|].
  rewrite mentions_keyword_iff, begins_with_select_iff.
  rewrite clean_sql_query_unfold.
  set (u := upper (cleaned_text raw)). split.
  - intros [M B].
    assert (S : startswith u "SELECT" = false)
      by (destruct (startswith u "SELECT"); congruence).
    destruct (@check_keywords_raises _ u M S) as (kw & I & _ & R).
    exists kw. split; [assumption|]. now rewrite R.
  - intros N. destruct (startswith u "SELECT") eqn:S.
    + now rewrite check_keywords_select.
    + rewrite check_keywords_absent; [reflexivity|].
      intros kw I. destruct (contains kw u) eqn:C; [|reflexivity].
      exfalso. apply N. split; [now exists kw | congruence].
Qed.

Lemma clean_sql_query_contract_witness :
  (exists kw, In kw dangerous_keywords /\
     clean_sql_query "```sql
drop   table t```" = inl (ValueError (dangerous_message ++ kw))) /\
  clean_sql_query "update SELECT" = inl (ValueError (dangerous_message ++ "UPDATE")) /\
  clean_sql_query "  show
 tables " = inr ("show tables" : str).
Proof.
  split; [|split].
  - apply (proj1 (proj2 (proj2 (clean_sql_query_contract "```sql
drop   table t```")))).
    split.
    + exists ("DROP" : str), [], (" TABLE T" : str).
      split; [now left | reflexivity].
    + rewrite begins_with_select_iff. discriminate.
  - reflexivity.
  - apply (proj2 (proj2 (proj2 (clean_sql_query_contract "  show
 tables ")))).
    rewrite mentions_keyword_iff. intros [(kw & I & C) _].
    simpl in I. repeat (destruct I as [<- | I]; [discriminate C|]).
    contradiction.
Defined.

(** C4, as amended.  A text whose cleaned form begins with SELECT (in any
    letter case) is never rejected, whatever keywords it holds: the
    sanitizer returns the cleaned text. *)
Theorem clean_sql_query_select_passes (raw : str) :
  begins_with_select (cleaned_text raw) ->
  clean_sql_query raw = inr (cleaned_text raw).
Proof.
  rewrite begins_with_select_iff. apply clean_sql_query_select.
Qed.

Lemma clean_sql_query_select_passes_witness :
  begins_with_select (cleaned_text "select * from t; DROP TABLE t") /\
  clean_sql_query "select * from t; DROP TABLE t" =
  inr (cleaned_text "select * from t; DROP TABLE t").
Proof.
  assert (B : begins_with_select (cleaned_text "select * from t; DROP TABLE t"))
    by (exists (" * FROM T; DROP TABLE T" : str); reflexivity).
  split; [exact B|].
  apply (clean_sql_query_select_passes "select * from t; DROP TABLE t" B).
Defined.

(** C4, the claim as stated fails: [SELECT * FROM t -- DROP] begins with
    SELECT and mentions DROP, and the sanitizer returns it. *)
Lemma select_with_keyword_not_flagged :
  begins_with_select (cleaned_text "SELECT * FROM t -- DROP") /\
  mentions_keyword (cleaned_text "SELECT * FROM t -- DROP") /\
  clean_sql_query "SELECT * FROM t -- DROP" =
  inr ("SELECT * FROM t -- DROP" : str).
Proof.
  split; [|split].
  - exists (" * FROM T -- DROP" : str). reflexivity.
  - exists ("DROP" : str), ("SELECT * FROM T -- " : str), [].
    split; [now left | reflexivity].
  - reflexivity.
Qed.

(** C8, as amended.  [validate_sql] returns a boolean on every input, also
    where the sanitizer raises; it is false whenever the cleaned statement
    (code-fence markers deleted, white space collapsed and trimmed) does
    not begin with SELECT (in any letter case) and whenever the statement
    has different numbers of opening and closing parentheses, and true
    otherwise; the two statements of the specification give false and
    true. *)
Theorem validate_sql_contract :
  (forall sql e, clean_sql_query sql = inl e -> validate_sql sql = false) /\
  (forall sql, ~ begins_with_select (cleaned_text sql) ->
               validate_sql sql = false) /\
  (forall sql, count LPAREN sql <> count RPAREN sql ->
               validate_sql sql = false) /\
  (forall sql, validate_sql sql = true <->
               begins_with_select (cleaned_text sql) /\
               count LPAREN sql = count RPAREN sql) /\
  validate_sql "SELECT * FROM t WHERE (a = 1" = false /\
  validate_sql "SELECT * FROM t WHERE (a = 1)" = true.
Proof.
  assert (Iff : forall sql, validate_sql sql = true <->
               begins_with_select (cleaned_text sql) /\
               count LPAREN sql = count RPAREN sql).
  { intros sql.
    now rewrite validate_sql_eq, andb_true_iff, begins_with_select_iff,
      Nat.eqb_eq. }
  split; [|split; [|split; [|split; [exact Iff | split; reflexivity]]]].
  - intros sql e H. unfold validate_sql. now rewrite H.
  - intros sql H. destruct (validate_sql sql) eqn:V; [|reflexivity].
    apply Iff in V. tauto.
  - intros sql H. destruct (validate_sql sql) eqn:V; [|reflexivity].
    apply Iff in V. tauto.
Qed.

Lemma validate_sql_contract_witness :
  validate_sql "DELETE FROM t" = false /\
  validate_sql "SHOW TABLES" = false /\
  validate_sql "SELECT COUNT(*) FROM (t" = false.
Proof.
  destruct validate_sql_contract as (Raise & NoSelect & Parens & _).
  split; [|split].
  - apply (Raise "DELETE FROM t" (ValueError (dangerous_message ++ "DELETE"))).
    reflexivity.
  - apply (NoSelect "SHOW TABLES"). rewrite begins_with_select_iff.
    discriminate.
  - apply (Parens "SELECT COUNT(*) FROM (t"). discriminate.
Defined.

(** C8, the claim as stated fails.  Neither of these two statements begins
    with SELECT in any letter case: the first begins with a space, the
    second with [SEL] and a code-fence marker.  Their parentheses are
    balanced, and [validate_sql] returns true for both, because it tests
    the cleaned statement and not the statement it was given. *)
Lemma validate_sql_accepts_after_cleaning :
  ~ begins_with_select " select 1" /\
  validate_sql " select 1" = true /\
  ~ begins_with_select "SEL```ECT 1" /\
  validate_sql "SEL```ECT 1" = true.
Proof.
  rewrite !begins_with_select_iff.
  split; [discriminate|]. split; [reflexivity|].
  split; [discriminate | reflexivity].
Qed.

(** C9.  The sanitizer is idempotent where it succeeds: if it returns [y]
    for [x], it returns [y] for [y]. *)
Theorem clean_sql_query_idempotent (x y : str) :
  clean_sql_query x = inr y ->
  clean_sql_query y = clean_sql_query x.
Proof.
  intros H. rewrite H. now apply clean_sql_query_fixed with x.
Qed.

Lemma clean_sql_query_idempotent_witness :
  clean_sql_query "```sql
SELECT   name
FROM  t
```" = inr ("SELECT name FROM t" : str) /\
  clean_sql_query "SELECT name FROM t" =
  clean_sql_query "```sql
SELECT   name
FROM  t
```".
Proof.
  split; [reflexivity|].
  apply (@clean_sql_query_idempotent "```sql
SELECT   name
FROM  t
```" "SELECT name FROM t").
  reflexivity.
Defined.

(** ** The resolver *)

Lemma str_eqb_eq (a b : str) : str_eqb a b = true -> a = b.
Proof. unfold str_eqb. now destruct (list_eq_dec ascii_dec a b). Qed.

(** Every SQL text of the two tables, the default and the error
    placeholder pass the sanitizer unchanged and pass the advisory check. *)
Lemma fixed_sql_pass (sql : str) :
  In sql (map snd fallback_patterns ++ map snd patterns ++
          [ "SELECT * FROM sales LIMIT 10" : str; "SELECT 1 as error" : str ]) ->
  clean_sql_query sql = inr sql /\ validate_sql sql = true.
Proof.
  intros I.
  assert (F : forallb (fun s => passes_sanitizer s && validate_sql s)
                (map snd fallback_patterns ++ map snd patterns ++
                 [ "SELECT * FROM sales LIMIT 10" : str;
                   "SELECT 1 as error" : str ]) = true)
    by (vm_compute; reflexivity).
  rewrite forallb_forall in F. apply F in I.
  apply andb_true_iff in I as [P V]. split; [|assumption].
  unfold passes_sanitizer in P.
  destruct (clean_sql_query sql) as [e|y]; [discriminate|].
  now apply str_eqb_eq in P as ->.
Qed.

Lemma table_sql_pass (p : regex) (sql : str) :
  In (p, sql) fallback_patterns \/ In (p, sql) patterns ->
  clean_sql_query sql = inr sql /\ validate_sql sql = true.
Proof.
  intros H. apply fixed_sql_pass. rewrite !in_app_iff.
  destruct H as [H|H]; [left | right; left];
    now apply (in_map snd) in H.
Qed.

(** The loop over a table. *)
Lemma first_hit_found test (pre post : list (regex * str)) p sql q :
  (forall p' sql', In (p', sql') pre -> test p' q = inr false) ->
  test p q = inr true ->
  first_hit test (pre ++ (p, sql) :: post) q = inr (Some sql).
Proof.
  intros Hpre Hp. induction pre as [|[p0 s0] pre IH]; cbn [app first_hit].
  - now rewrite Hp.
  - rewrite (Hpre p0 s0) by now left. cbn [bind].
    apply IH. intros p' sql' I. apply (Hpre p' sql'). now right.
Qed.

Lemma first_hit_none test (table : list (regex * str)) q :
  (forall p sql, In (p, sql) table -> test p q = inr false) ->
  first_hit test table q = inr None.
Proof.
  induction table as [|[p0 s0] table IH]; intros H; cbn [first_hit];
    [reflexivity|].
  rewrite (H p0 s0) by now left. cbn [bind].
  apply IH. intros p sql I. apply (H p sql). now right.
Qed.

Lemma first_hit_total test (table : list (regex * str)) q :
  (forall p, exists b, test p q = inr b) ->
  first_hit test table q = inr None \/
  exists p sql, In (p, sql) table /\ first_hit test table q = inr (Some sql).
Proof.
  intros T. induction table as [|[p0 s0] table IH]; cbn [first_hit];
    [now left|].
  destruct (T p0) as [[|] ->]; cbn [bind].
  - right. exists p0, s0. split; [now left | reflexivity].
  - destruct IH as [-> | (p & sql & I & ->)]; [now left|].
    right. exists p, sql. split; [now right | reflexivity].
Qed.

(** A blank question matches no pattern that needs a character other than
    white space, and every pattern of the tables does. *)
Lemma blank_no_match (r : regex) (q : str) :
  Forall (fun c => is_space c = true) q ->
  needs_ink r = true ->
  re_match r q = false /\ re_search r q = false.
Proof.
  intros B N.
  assert (K : forall p, matches r p -> incl p q -> False).
  { intros p M I. destruct (needs_ink_spec N M) as (x & Ix & Sx).
    rewrite Forall_forall in B. apply I, B in Ix. congruence. }
  split.
  - destruct (re_match r q) eqn:E; [|reflexivity]. exfalso.
    apply re_match_spec in E as (p & t & -> & M).
    apply (K p M). now apply incl_appl, incl_refl.
  - destruct (re_search r q) eqn:E; [|reflexivity]. exfalso.
    apply re_search_spec in E as (a & p & t & -> & M).
    apply (K p M). apply incl_appr, incl_appl, incl_refl.
Qed.

Lemma tables_need_ink (p : regex) (sql : str) :
  In (p, sql) fallback_patterns \/ In (p, sql) patterns ->
  needs_ink p = true.
Proof.
  intros I.
  assert (F : forallb (fun e => needs_ink (fst e))
                (fallback_patterns ++ patterns) = true)
    by (vm_compute; reflexivity).
  rewrite forallb_forall in F. apply (F (p, sql)).
  apply in_or_app. tauto.
Qed.

(** A table checked by computation. *)
Lemma no_hit_from_forallb (f : regex -> str -> bool)
  (table : list (regex * str)) (q : str) :
  forallb (fun e => negb (f (fst e) q)) table = true ->
  forall p sql, In (p, sql) table -> f p q = false.
Proof.
  intros F p sql I. rewrite forallb_forall in F.
  apply F in I. now apply negb_true_iff in I.
Qed.

Section ResolverFacts.

Variable rt : Runtime.
Variable self : QueryProcessor.

Local Abbreviation resolve := (natural_language_to_sql rt self).
Local Abbreviation body := (resolve_body rt self).
Local Abbreviation rule_based := (_rule_based_to_sql rt).
Local Abbreviation openai := (_openai_to_sql rt self).
Local Abbreviation tier1 := (py_re_match rt).
Local Abbreviation tier2 := (py_re_search rt).

(** Tier 2 and the default, on a string. *)
Lemma rule_based_cases (q : str) :
  rule_based (PyStr q) = inr default_result \/
  exists p sql, In (p, sql) patterns /\
                rule_based (PyStr q) = inr (sql, "Rule-based matching" : str).
Proof.
  unfold _rule_based_to_sql. cbn [bind ret].
  destruct (@first_hit_total tier2 patterns (PyStr q)) as [-> | (p & sql & I & ->)].
  - intros p. now exists (re_search p q).
  - now left.
  - right. now exists p, sql.
Qed.

(** Tier 3: the answer of the remote call if the sanitizer accepts it,
    tier 2 otherwise. *)
Lemma openai_cases (q : str) :
  openai (PyStr q) = rule_based (PyStr q) \/
  exists content cleaned,
    chat_completion rt (schema_context self) (PyStr q) = inr content /\
    clean_sql_query (strip content) = inr cleaned /\
    openai (PyStr q) = inr (cleaned, "OpenAI GPT" : str).
Proof.
  unfold _openai_to_sql.
  destruct (chat_completion rt (schema_context self) (PyStr q)) as [e|content] eqn:C;
    cbn [bind try_except]; [now left|].
  destruct (clean_sql_query (strip content)) as [e|cleaned] eqn:S;
    cbn [bind try_except ret]; [now left|].
  right. now exists content, cleaned.
Qed.

(** The four ways a string is resolved. *)
Lemma resolve_cases (q : str) :
  (exists p sql, In (p, sql) fallback_patterns /\
                 resolve (PyStr q) = (sql, "Pattern matching" : str)) \/
  (exists p sql, In (p, sql) patterns /\
                 resolve (PyStr q) = (sql, "Rule-based matching" : str)) \/
  resolve (PyStr q) = default_result \/
  (exists content cleaned,
     chat_completion rt (schema_context self) (PyStr q) = inr content /\
     clean_sql_query (strip content) = inr cleaned /\
     resolve (PyStr q) = (cleaned, "OpenAI GPT" : str)).
Proof.
  unfold natural_language_to_sql, resolve_body.
  destruct (@first_hit_total tier1 fallback_patterns (PyStr q))
    as [-> | (p & sql & I & ->)].
  - intros p. now exists (re_match p q).
  - cbn [bind].
    assert (R : forall r, rule_based (PyStr q) = r ->
              (exists p sql, In (p, sql) patterns /\
                 match r with inr x => x
                 | inl e => ("SELECT 1 as error" : str, "Error: " ++ str_of e)
                 end = (sql, "Rule-based matching" : str)) \/
              match r with inr x => x
              | inl e => ("SELECT 1 as error" : str, "Error: " ++ str_of e)
              end = default_result).
    { intros r <-. destruct (rule_based_cases q) as [-> | (p & sql & I & ->)];
        [now right | left; now exists p, sql]. }
    destruct (truthy (openai_api_key self)).
    + destruct (openai_cases q) as [-> | (content & cleaned & C & S & ->)].
      * destruct (R _ eq_refl) as [H|H]; [right; left | right; right; left];
          exact H.
      * right; right; right. now exists content, cleaned.
    + destruct (R _ eq_refl) as [H|H]; [right; left | right; right; left];
        exact H.
  - left. now exists p, sql.
Qed.

(** ** Claims about the resolver *)

(** The method tags the source returns for a string. *)
Lemma resolve_method_str (q : str) :
  In (snd (resolve (PyStr q)))
     [ "Pattern matching" : str; "Rule-based matching" : str;
       "Default fallback" : str; "OpenAI GPT" : str ].
Proof.
  destruct (resolve_cases q)
    as [(p & sql & _ & ->) | [(p & sql & _ & ->) | [-> | (c & s & _ & _ & ->)]]];
    cbn [snd default_result In]; tauto.
Qed.


(** C2, as amended.  Whatever is returned, the error placeholder
    included, passes the sanitizer unchanged; it also passes the advisory
    check unless it is the answer of the remote call. *)
Theorem resolve_sql_sanitized (nl_query : pyobj) :
  clean_sql_query (fst (natural_language_to_sql rt self nl_query)) =
  inr (fst (natural_language_to_sql rt self nl_query)) /\
  (snd (natural_language_to_sql rt self nl_query) <> ("OpenAI GPT" : str) ->
   validate_sql (fst (natural_language_to_sql rt self nl_query)) = true).
Proof.
  destruct nl_query as [q|].
  - destruct (resolve_cases q)
      as [(p & sql & I & ->) | [(p & sql & I & ->) | [-> | (c & s & _ & S & ->)]]];
      cbn [fst snd].
    + destruct (@table_sql_pass p sql) as [C V]; [now left | now split].
    + destruct (@table_sql_pass p sql) as [C V]; [now right | now split].
    + split; reflexivity.
    + split; [now apply clean_sql_query_fixed in S | congruence].
  - split; reflexivity.
Qed.

(** C3, as amended.  For a string the method tag is one of
    [Pattern matching], [Rule-based matching], [Default fallback] and
    [OpenAI GPT]; for a question that is not a string it is [Error: ]
    followed by the text of the exception. *)
Theorem resolve_method_tags :
  (forall q, In (snd (natural_language_to_sql rt self (PyStr q)))
               [ "Pattern matching" : str; "Rule-based matching" : str;
                 "Default fallback" : str; "OpenAI GPT" : str ]) /\
  snd (natural_language_to_sql rt self PyNone) = "Error: " ++ subject_error rt.
Proof. split; [exact resolve_method_str | reflexivity]. Qed.

(** C6, as amended.  The resolver returns a pair in every case.  An
    exception that leaves the body of its [try] is turned into
    [SELECT 1 as error] with the tag [Error: ] and the text of the
    exception, which is what happens for a question that is not a string;
    an exception of the remote call, or of the sanitizer on its answer, is
    caught inside tier 3 and replaced by the result of tier 2 and never
    shows as an error. *)
Theorem resolve_exceptions :
  (forall nl_query e,
     resolve_body rt self nl_query = inl e ->
     natural_language_to_sql rt self nl_query =
     ("SELECT 1 as error" : str, "Error: " ++ str_of e)) /\
  resolve_body rt self PyNone = inl (TypeError (subject_error rt)) /\
  (forall q, exists r, resolve_body rt self (PyStr q) = inr r) /\
  (forall q r,
     (forall p sql, In (p, sql) fallback_patterns -> re_match p q = false) ->
     truthy (openai_api_key self) = true ->
     (exists e, chat_completion rt (schema_context self) (PyStr q) = inl e) \/
     (exists content e,
        chat_completion rt (schema_context self) (PyStr q) = inr content /\
        clean_sql_query (strip content) = inl e) ->
     _rule_based_to_sql rt (PyStr q) = inr r ->
     natural_language_to_sql rt self (PyStr q) = r).
Proof.
  split; [|split; [|split]].
  - intros nl_query e H. unfold natural_language_to_sql. now rewrite H.
  - reflexivity.
  - intros q. unfold resolve_body.
    assert (R : exists r, rule_based (PyStr q) = inr r).
    { destruct (rule_based_cases q) as [-> | (p & sql & _ & ->)]; eauto. }
    destruct (@first_hit_total tier1 fallback_patterns (PyStr q))
      as [-> | (p & sql & I & ->)].
    + intros p. now exists (re_match p q).
    + cbn [bind]. destruct (truthy (openai_api_key self)); [|exact R].
      destruct (openai_cases q) as [-> | (c & s & _ & _ & ->)]; eauto.
    + cbn [bind ret]. eauto.
  - intros q r H1 T K R. unfold natural_language_to_sql, resolve_body.
    rewrite (@first_hit_none tier1 fallback_patterns (PyStr q)).
    2:{ intros p' sql' I. cbn. now rewrite (H1 p' sql' I). }
    cbn [bind]. rewrite T. unfold _openai_to_sql.
    destruct K as [[e K] | (content & e & K & S)]; rewrite K;
      cbn [bind try_except]; [|rewrite S; cbn [bind try_except]];
      now rewrite R.
Qed.

(** No pattern of either table found and no credential: the default. *)
Lemma resolve_unmatched (q : str) :
  (forall p sql, In (p, sql) fallback_patterns -> re_match p q = false) ->
  (forall p sql, In (p, sql) patterns -> re_search p q = false) ->
  truthy (openai_api_key self) = false ->
  resolve (PyStr q) = default_result.
Proof.
  intros H1 H2 T. unfold natural_language_to_sql, resolve_body.
  rewrite (@first_hit_none tier1 fallback_patterns (PyStr q)).
  2:{ intros p' sql' I. cbn. now rewrite (H1 p' sql' I). }
  cbn [bind]. rewrite T. unfold _rule_based_to_sql. cbn [bind ret].
  rewrite (@first_hit_none tier2 patterns (PyStr q)).
  2:{ intros p' sql' I. cbn. now rewrite (H2 p' sql' I). }
  reflexivity.
Qed.

(** C7, as amended.  A question that matches no pattern of either table,
    with no credential configured, gets the default query with the tag
    [Default fallback], whatever the remote call would answer. *)
Theorem resolve_default (q : str) :
  (forall p sql, In (p, sql) fallback_patterns -> re_match p q = false) ->
  (forall p sql, In (p, sql) patterns -> re_search p q = false) ->
  truthy (openai_api_key self) = false ->
  natural_language_to_sql rt self (PyStr q) =
  ("SELECT * FROM sales LIMIT 10" : str, "Default fallback" : str).
Proof. apply resolve_unmatched. Qed.

(** C10.  A blank question, empty or of white space only, matches no
    pattern of either table; with no credential configured the resolver
    returns the default query with the tag [Default fallback], not an
    error. *)
Theorem resolve_blank (q : str) :
  Forall (fun c => is_space c = true) q ->
  truthy (openai_api_key self) = false ->
  (forall p sql, In (p, sql) fallback_patterns -> re_match p q = false) /\
  (forall p sql, In (p, sql) patterns -> re_search p q = false) /\
  natural_language_to_sql rt self (PyStr q) =
  ("SELECT * FROM sales LIMIT 10" : str, "Default fallback" : str).
Proof.
  intros B T.
  assert (H1 : forall p sql, In (p, sql) fallback_patterns ->
                             re_match p q = false).
  { intros p sql I. apply blank_no_match; [assumption|].
    apply (@tables_need_ink p sql). now left. }
  assert (H2 : forall p sql, In (p, sql) patterns -> re_search p q = false).
  { intros p sql I. apply blank_no_match; [assumption|].
    apply (@tables_need_ink p sql). now right. }
  split; [exact H1 | split; [exact H2|]].
  now apply resolve_unmatched.
Qed.

End ResolverFacts.


(** ** The claims at concrete questions *)



Lemma resolve_sql_sanitized_witness :
  validate_sql
    (fst (natural_language_to_sql remote_down with_key
            (PyStr "how many rows are there"))) = true.
Proof.
  apply (proj2 (@resolve_sql_sanitized remote_down with_key
                  (PyStr "how many rows are there"))).
  vm_compute. discriminate.
Defined.

(** C2, the claim as stated fails: an answer of the remote call that the
    sanitizer lets through is returned with the tag [OpenAI GPT] although
    the advisory check rejects it. *)
Lemma remote_answer_not_validated :
  natural_language_to_sql (remote_answers "SHOW TABLES") with_key
    (PyStr "hello") =
  ("SHOW TABLES" : str, "OpenAI GPT" : str) /\
  clean_sql_query "SHOW TABLES" = inr ("SHOW TABLES" : str) /\
  validate_sql "SHOW TABLES" = false.
Proof. repeat split. Qed.

(** C3, the claim as stated fails: the tag of a first-table hit is
    [Pattern matching], none of the four strings of the specification. *)
Lemma method_tag_outside_the_four :
  snd (natural_language_to_sql remote_down without_key
         (PyStr "Show me all sales data")) =
  ("Pattern matching" : str) /\
  ~ In ("Pattern matching" : str)
       [ "pattern" : str; "rule-based" : str; "llm" : str; "error" : str ].
Proof.
  split; [vm_compute; reflexivity|].
  intros [H|[H|[H|[H|[]]]]]; discriminate H.
Qed.

Lemma resolve_exceptions_witness :
  natural_language_to_sql remote_down with_key (PyStr "hello") =
  ("SELECT * FROM sales LIMIT 10" : str, "Default fallback" : str) /\
  natural_language_to_sql remote_down with_key PyNone =
  ("SELECT 1 as error" : str, "Error: " ++ subject_error_text).
Proof.
  destruct (@resolve_exceptions remote_down with_key)
    as (Handler & Raises & _ & Inner).
  split.
  - apply (Inner "hello").
    + apply no_hit_from_forallb. vm_compute. reflexivity.
    + reflexivity.
    + left. now exists (APIError "Request timed out").
    + vm_compute. reflexivity.
  - apply (Handler PyNone (TypeError subject_error_text)). exact Raises.
Defined.

(** C6, the claim as stated fails: the remote call raises during the
    resolution of [hello], and the result is the default query with the
    tag [Default fallback], not an error result; and where an error
    result is returned, its tag is not the string [error]. *)
Lemma remote_exception_is_not_an_error_result :
  chat_completion remote_down (schema_context with_key) (PyStr "hello") =
  inl (APIError "Request timed out") /\
  natural_language_to_sql remote_down with_key (PyStr "hello") =
  ("SELECT * FROM sales LIMIT 10" : str, "Default fallback" : str) /\
  natural_language_to_sql remote_down with_key PyNone =
  ("SELECT 1 as error" : str,
   "Error: expected string or bytes-like object" : str) /\
  ("Error: expected string or bytes-like object" : str) <> ("error" : str).
Proof.
  split; [reflexivity|]. split; [vm_compute; reflexivity|].
  split; [vm_compute; reflexivity | discriminate].
Qed.

Lemma resolve_default_witness :
  natural_language_to_sql (remote_answers "SELECT 1") without_key
    (PyStr "hello") =
  ("SELECT * FROM sales LIMIT 10" : str, "Default fallback" : str).
Proof.
  apply (@resolve_default (remote_answers "SELECT 1") without_key "hello").
  - apply no_hit_from_forallb. vm_compute. reflexivity.
  - apply no_hit_from_forallb. vm_compute. reflexivity.
  - reflexivity.
Defined.

(** C7, the claim as stated fails: [hello] matches no pattern of either
    table and no credential is configured; the tag of the default is
    [Default fallback], which is neither [rule-based] nor the tag
    [Rule-based matching] of a second-table hit. *)
Lemma default_tag_is_not_rule_based :
  (forall p sql, In (p, sql) fallback_patterns -> re_match p "hello" = false) /\
  (forall p sql, In (p, sql) patterns -> re_search p "hello" = false) /\
  natural_language_to_sql remote_down without_key (PyStr "hello") =
  ("SELECT * FROM sales LIMIT 10" : str, "Default fallback" : str) /\
  ("Default fallback" : str) <> ("rule-based" : str) /\
  ("Default fallback" : str) <> ("Rule-based matching" : str).
Proof.
  split; [apply no_hit_from_forallb; vm_compute; reflexivity|].
  split; [apply no_hit_from_forallb; vm_compute; reflexivity|].
  split; [vm_compute; reflexivity|]. split; discriminate.
Qed.

Lemma resolve_blank_witness :
  natural_language_to_sql remote_down without_key
    (PyStr [SP; SP; LF; ascii_of_nat 9]) =
  ("SELECT * FROM sales LIMIT 10" : str, "Default fallback" : str).
Proof.
  apply (@resolve_blank remote_down without_key [SP; SP; LF; ascii_of_nat 9]).
  - repeat constructor.
  - reflexivity.
Defined.

(* ================================================================== *)
(** * Further properties of the code *)

(** ** The text the sanitizer returns *)

Lemma join_words_only_spaces (ws : list str) :
  Forall is_word ws ->
  Forall (fun c => is_space c = true -> c = SP) (join [SP] ws).
Proof.
  induction ws as [|w ws IH]; intros H; [constructor|].
  inversion H as [|? ? [_ Hw] Hws]; subst.
  assert (W : Forall (fun c => is_space c = true -> c = SP) w).
  { apply Forall_impl with (2 := Hw). intros c E K. congruence. }
  destruct ws as [|w' ws']; [exact W|].
  rewrite join_cons2. apply Forall_app. split; [exact W|].
  apply Forall_app. split; [|now apply IH].
  constructor; [reflexivity | constructor].
Qed.

Lemma contains_two_spaces_word (w t : str) :
  Forall (fun c => is_space c = false) w ->
  (t = [] \/ exists c t', t = c :: t' /\ is_space c = false) ->
  contains [SP; SP] t = false ->
  contains [SP; SP] (w ++ SP :: t) = false.
Proof.
  intros Hw Ht Ct. induction w as [|c w IH]; cbn [app contains].
  - rewrite Ct, orb_false_r. cbn [startswith].
    destruct Ht as [-> | (c & t' & -> & Hc)]; [reflexivity|].
    replace (eqb_char SP c) with false; [reflexivity|].
    symmetry. apply eqb_char_neq. intros <-. discriminate.
  - inversion Hw as [|? ? Hc Hw']; subst. rewrite (IH Hw'), orb_false_r.
    cbn [startswith].
    replace (eqb_char SP c) with false; [reflexivity|].
    symmetry. apply eqb_char_neq. intros <-. discriminate.
Qed.

Lemma contains_two_spaces_plain (w : str) :
  Forall (fun c => is_space c = false) w -> contains [SP; SP] w = false.
Proof.
  induction w as [|c w IH]; intros H; [reflexivity|].
  inversion H as [|? ? Hc Hw]; subst. cbn [contains startswith].
  rewrite (IH Hw), orb_false_r.
  replace (eqb_char SP c) with false; [reflexivity|].
  symmetry. apply eqb_char_neq. intros <-. discriminate.
Qed.

Lemma join_words_no_two_spaces (ws : list str) :
  Forall is_word ws -> contains [SP; SP] (join [SP] ws) = false.
Proof.
  induction ws as [|w ws IH]; intros H; [reflexivity|].
  inversion H as [|? ? [Hne Hw] Hws]; subst.
  destruct ws as [|w' ws']; [now apply contains_two_spaces_plain|].
  rewrite join_cons2. change ([SP] ++ ?x) with (SP :: x).
  apply contains_two_spaces_word; [assumption | | now apply IH].
  right. inversion Hws as [|? ? Hw' _]; subst.
  destruct (join_words_first ws' Hw') as (c & t & E & Hc). now exists c, t.
Qed.

(** X1.  What the sanitizer returns is in normal form: its only white
    space is the space character, no two spaces are adjacent, it neither
    starts nor ends with white space, and it holds no code-fence marker. *)
Theorem clean_sql_query_normal_form (x y : str) :
  clean_sql_query x = inr y ->
  Forall (fun c => is_space c = true -> c = SP) y /\
  contains [SP; SP] y = false /\
  strip y = y /\
  contains fence y = false.
Proof.
  intros H. apply clean_sql_query_inv in H as [-> _].
  unfold cleaned_text at 1 2 3, collapse_whitespace.
  pose proof (split_words (strip_code_fences x)) as W.
  split; [now apply join_words_only_spaces|].
  split; [now apply join_words_no_two_spaces|].
  split; [now apply strip_join_words | apply cleaned_text_no_fence].
Qed.

Lemma clean_sql_query_normal_form_witness :
  contains [SP; SP] ("SELECT a FROM t" : str) = false /\
  strip ("SELECT a FROM t" : str) = "SELECT a FROM t".
Proof.
  destruct (@clean_sql_query_normal_form "```sql
 SELECT	a
  FROM   t
```
" "SELECT a FROM t" eq_refl) as (_ & A & B & _).
  split; assumption.
Defined.

(** X2.  The sanitizer neither drops nor adds a character other than white
    space, the backtick and the letters of the fence tag [sql]: the number
    of occurrences of every other character is unchanged. *)
Theorem clean_sql_query_keeps_characters (x y : str) (c : ascii) :
  clean_sql_query x = inr y ->
  is_space c = false ->
  ~ In c ("`sql" : str) ->
  count c y = count c x.
Proof.
  intros H S N. apply clean_sql_query_inv in H as [-> _].
  apply count_cleaned_text; [assumption|].
  intros K. apply N. simpl in *. tauto.
Qed.

Lemma clean_sql_query_keeps_characters_witness :
  count ";" ("SELECT 1; SELECT 2;" : str) = count ";" ("```sql
SELECT 1;
SELECT 2;
```" : str).
Proof.
  apply (@clean_sql_query_keeps_characters "```sql
SELECT 1;
SELECT 2;
```" "SELECT 1; SELECT 2;" ";" eq_refl eq_refl).
  intros K. simpl in K. intuition discriminate.
Defined.

(** ** Blank input *)

Lemma startswith_blank (x m : str) (b : ascii) :
  Forall (fun c => is_space c = true) x -> is_space b = false ->
  startswith x (b :: m) = false.
Proof.
  intros Hx Hb. destruct x as [|c x]; [reflexivity|].
  inversion Hx as [|? ? Hc _]; subst. cbn [startswith].
  replace (eqb_char b c) with false; [reflexivity|].
  symmetry. apply eqb_char_neq. intros <-. congruence.
Qed.

Lemma contains_blank (x m : str) (b : ascii) :
  Forall (fun c => is_space c = true) x -> is_space b = false ->
  contains (b :: m) x = false.
Proof.
  intros Hx Hb. induction x as [|c x IH].
  - reflexivity.
  - cbn [contains]. rewrite (@startswith_blank (c :: x) m b Hx Hb).
    inversion Hx; subst. now apply IH.
Qed.

Lemma split_blank (x : str) :
  Forall (fun c => is_space c = true) x -> split x = [].
Proof.
  induction x as [|c x IH]; intros H; [reflexivity|].
  inversion H as [|? ? Hc Hx]; subst. rewrite split_cons, Hc. now apply IH.
Qed.

Lemma lstrip_empty_iff_blank (s : str) :
  lstrip s = [] <-> Forall (fun c => is_space c = true) s.
Proof.
  induction s as [|c s IH]; simpl.
  - split; [constructor | reflexivity].
  - destruct (is_space c) eqn:E.
    + rewrite IH. split; [now constructor | now inversion 1].
    + split; [discriminate | inversion 1; congruence].
Qed.

Lemma lstrip_head (s : str) :
  lstrip s = [] \/ exists c t, lstrip s = c :: t /\ is_space c = false.
Proof.
  induction s as [|c s IH]; simpl; [now left|].
  destruct (is_space c) eqn:E; [exact IH|]. right. now exists c, s.
Qed.

Lemma Forall_rev_iff (P : ascii -> Prop) (s : str) :
  Forall P (rev s) <-> Forall P s.
Proof.
  rewrite !Forall_forall. split; intros H c I; apply H.
  - now apply -> in_rev.
  - now apply in_rev.
Qed.

(** [s.strip()] is empty exactly for a blank [s]. *)
Lemma strip_empty_iff_blank (x : str) :
  strip x = [] <-> Forall (fun c => is_space c = true) x.
Proof.
  unfold strip, rstrip. split.
  - intros H. apply (proj1 (lstrip_empty_iff_blank _)) in H.
    apply (proj1 (Forall_rev_iff _ _)) in H.
    destruct (lstrip_head (rev x)) as [E | (c & t & E & Hc)].
    + apply (proj1 (lstrip_empty_iff_blank _)) in E.
      now apply (proj1 (Forall_rev_iff _ _)) in E.
    + rewrite E in H. inversion H; congruence.
  - intros H. apply (proj2 (Forall_rev_iff _ _)) in H.
    apply (proj2 (lstrip_empty_iff_blank _)) in H. now rewrite H.
Qed.

(** X3.  On a blank text, empty or of white space only, the sanitizer
    returns the empty text and the advisory check answers false. *)
Theorem blank_sql (x : str) :
  Forall (fun c => is_space c = true) x ->
  clean_sql_query x = inr [] /\ validate_sql x = false.
Proof.
  intros B.
  assert (C : cleaned_text x = []).
  { unfold cleaned_text, strip_code_fences.
    rewrite (@sub_marker_absent "```sql" x) by now apply contains_blank.
    rewrite (@sub_marker_absent "```" x) by now apply contains_blank.
    unfold collapse_whitespace. now rewrite split_blank. }
  split.
  - rewrite clean_sql_query_unfold, C. reflexivity.
  - rewrite validate_sql_eq, C. reflexivity.
Qed.

Lemma blank_sql_witness :
  clean_sql_query [SP; LF; ascii_of_nat 9] = inr [] /\
  validate_sql [SP; LF; ascii_of_nat 9] = false.
Proof.
  apply (@blank_sql [SP; LF; ascii_of_nat 9]). repeat constructor.
Defined.

(** ** Which keyword is reported *)

Lemma check_keywords_first (pre post : list str) (kw u : str) :
  (forall k, In k pre -> contains k u = false) ->
  contains kw u = true ->
  startswith u "SELECT" = false ->
  check_keywords (pre ++ kw :: post) u =
  inl (ValueError (dangerous_message ++ kw)).
Proof.
  intros Hpre Hkw S. induction pre as [|k pre IH]; cbn [app check_keywords].
  - now rewrite Hkw, S.
  - rewrite (Hpre k) by now left. cbn [andb].
    apply IH. intros k' I. apply Hpre. now right.
Qed.

(** X4.  The error of the sanitizer names the first keyword, in the order
    DROP, DELETE, INSERT, UPDATE, ALTER, CREATE, TRUNCATE of the list, that
    occurs in the upper-cased cleaned text, wherever the keywords stand in
    the text. *)
Theorem clean_sql_query_reports_first_keyword (raw : str)
  (pre post : list str) (kw : str) :
  dangerous_keywords = pre ++ kw :: post ->
  (forall k, In k pre -> contains k (upper (cleaned_text raw)) = false) ->
  contains kw (upper (cleaned_text raw)) = true ->
  ~ begins_with_select (cleaned_text raw) ->
  clean_sql_query raw = inl (ValueError (dangerous_message ++ kw)).
Proof.
  intros E Hpre Hkw B. rewrite begins_with_select_iff in B.
  rewrite clean_sql_query_unfold, E.
  rewrite (@check_keywords_first pre post kw); auto.
  now destruct (startswith (upper (cleaned_text raw)) "SELECT").
Qed.

Lemma clean_sql_query_reports_first_keyword_witness :
  clean_sql_query "truncate t; delete from t" =
  inl (ValueError "Potentially dangerous SQL operation detected: DELETE").
Proof.
  apply (@clean_sql_query_reports_first_keyword "truncate t; delete from t"
           [ "DROP" : str ] (skipn 2 dangerous_keywords) "DELETE").
  - reflexivity.
  - intros k [<- | []]. reflexivity.
  - reflexivity.
  - rewrite begins_with_select_iff. discriminate.
Defined.

(** ** The two checks together *)

(** X5.  A text the advisory check accepts is never rejected by the
    sanitizer. *)
Theorem validate_sql_implies_clean (x : str) :
  validate_sql x = true -> clean_sql_query x = inr (cleaned_text x).
Proof.
  rewrite validate_sql_eq, andb_true_iff. intros [S _].
  now apply clean_sql_query_select.
Qed.

Lemma validate_sql_implies_clean_witness :
  clean_sql_query "select (1); drop table t" =
  inr (cleaned_text "select (1); drop table t").
Proof.
  apply (@validate_sql_implies_clean "select (1); drop table t").
  reflexivity.
Defined.

(** X6.  Cleaning a text first changes the answer of neither check: both
    depend on the cleaned text only, also where the sanitizer raises. *)
Theorem checks_see_cleaned_text (x : str) :
  clean_sql_query (cleaned_text x) = clean_sql_query x /\
  validate_sql (cleaned_text x) = validate_sql x.
Proof.
  split.
  - now rewrite !clean_sql_query_unfold, cleaned_text_fixed.
  - rewrite !validate_sql_eq, cleaned_text_fixed.
    rewrite !count_cleaned_text;
      try reflexivity; intros K; simpl in K; intuition discriminate.
Qed.

(** ** The explanation of a query *)

Lemma upper_lower_char (c : ascii) : upper_char (lower_char c) = upper_char c.
Proof. all_chars c. Qed.

Lemma upper_lower (s : str) : upper (lower s) = upper s.
Proof.
  unfold upper, lower. rewrite map_map. apply map_ext, upper_lower_char.
Qed.

Lemma upper_same_letters (a b : str) : same_letters a b -> upper a = upper b.
Proof.
  unfold same_letters. intros H.
  now rewrite <- (upper_lower a), <- (upper_lower b), H.
Qed.

Lemma explanation_loop_filter (entries : list (str * str)) (u : str)
  (acc : list str) :
  explanation_loop entries u acc =
  acc ++ map snd (filter (fun entry => contains (upper (fst entry)) u) entries).
Proof.
  revert acc; induction entries as [|[pat expl] entries IH]; intros acc;
    cbn [explanation_loop filter fst].
  - now rewrite app_nil_r.
  - destruct (contains (upper pat) u); rewrite IH; [|reflexivity].
    cbn [map snd]. now rewrite <- app_assoc.
Qed.

Lemma contains_join_member (sep w : str) (ws : list str) :
  In w ws -> contains w (join sep ws) = true.
Proof.
  induction ws as [|w0 ws IH]; intros I; [contradiction|].
  apply contains_spec. destruct ws as [|w1 ws'].
  - destruct I as [-> | []]. exists [], []. simpl. now rewrite app_nil_r.
  - rewrite join_cons2. destruct I as [-> | I].
    + now exists [], (sep ++ join sep (w1 :: ws')).
    + apply IH, contains_spec in I as (a & b & ->).
      exists (w0 ++ sep ++ a), b. now rewrite <- !app_assoc.
Qed.

(** What [get_query_explanation] returns for a string. *)
Lemma get_query_explanation_str (s : str) :
  get_query_explanation (PyStr s) =
  match map snd (explanation_hits (upper s)) with
  | [] => explanation_generic
  | parts => explanation_prefix ++ join ", " parts
  end.
Proof.
  unfold get_query_explanation. cbn [bind ret try_except].
  rewrite explanation_loop_filter. cbn [app].
  fold (explanation_hits (upper s)).
  now destruct (map snd (explanation_hits (upper s))).
Qed.


(** X7.  The explanation does not depend on the letter case of the SQL
    text: two texts that differ in case only get the same explanation. *)
Theorem get_query_explanation_ignores_case (a b : str) :
  same_letters a b ->
  get_query_explanation (PyStr a) = get_query_explanation (PyStr b).
Proof.
  intros H. now rewrite !get_query_explanation_str, (upper_same_letters H).
Qed.

Lemma get_query_explanation_ignores_case_witness :
  get_query_explanation (PyStr "select count(*) from sales limit 5") =
  get_query_explanation (PyStr "SELECT COUNT(*) FROM Sales LIMIT 5").
Proof.
  apply (@get_query_explanation_ignores_case
           "select count(*) from sales limit 5"
           "SELECT COUNT(*) FROM Sales LIMIT 5").
  reflexivity.
Defined.

(** X8.  For a string the explanation is never the text of the error
    branch.  It is the generic sentence exactly when no pattern of the
    vocabulary occurs in the upper-cased text; otherwise it is the fixed
    prefix followed by the texts of the patterns that occur, in the order
    of the vocabulary and joined by [, ], so that the text of every
    pattern that occurs can be read in it.  For an argument that is not a
    string it is the text of the error branch. *)
Theorem get_query_explanation_contract (s : str) :
  get_query_explanation (PyStr s) <> explanation_unavailable /\
  (explanation_hits (upper s) = [] <->
   get_query_explanation (PyStr s) = explanation_generic) /\
  (explanation_hits (upper s) <> [] ->
   get_query_explanation (PyStr s) =
   explanation_prefix ++ join ", " (map snd (explanation_hits (upper s)))) /\
  (forall pattern explanation,
     In (pattern, explanation) explanations ->
     contains (upper pattern) (upper s) = true ->
     contains explanation (get_query_explanation (PyStr s)) = true) /\
  get_query_explanation PyNone = explanation_unavailable.
Proof.
  rewrite get_query_explanation_str.
  assert (Hit : forall pattern explanation,
             In (pattern, explanation) explanations ->
             contains (upper pattern) (upper s) = true ->
             In explanation (map snd (explanation_hits (upper s)))).
  { intros pat expl I C. apply (in_map snd _ (pat, expl)).
    apply filter_In. now split. }
  destruct (explanation_hits (upper s)) as [|h hits] eqn:E.
  - cbn [map]. split; [discriminate|]. split; [tauto|].
    split; [congruence|]. split; [|reflexivity].
    intros pat expl I C. destruct (Hit pat expl I C).
  - cbn [map]. split; [discriminate|]. split; [split; discriminate|].
    split; [reflexivity|]. split; [|reflexivity].
    intros pat expl I C. apply contains_spec.
    pose proof (contains_join_member ", " _ _ (Hit pat expl I C)) as K.
    apply contains_spec in K as (a & b & K). cbn [map] in K.
    exists (explanation_prefix ++ a), b. rewrite K.
    now rewrite <- !app_assoc.
Qed.

Lemma get_query_explanation_contract_witness :
  contains "Counting total number of records"
    (get_query_explanation (PyStr "SELECT COUNT(*) FROM sales")) = true /\
  get_query_explanation (PyStr "SELECT 1 as error") = explanation_generic.
Proof.
  destruct (get_query_explanation_contract "SELECT COUNT(*) FROM sales")
    as (_ & _ & _ & Reads & _).
  destruct (get_query_explanation_contract "SELECT 1 as error")
    as (_ & Generic & _).
  split.
  - apply (Reads "COUNT(*)" "Counting total number of records").
    + do 4 right. now left.
    + reflexivity.
  - apply Generic. reflexivity.
Defined.

(** ** Lines of a question *)

Lemma one_line_matches (r : regex) (p : str) :
  one_line r = true -> matches r p -> ~ In LF p.
Proof.
  intros O M. induction M; cbn [one_line] in O.
  - intros [].
  - intros [-> | []]. apply negb_true_iff in O. congruence.
  - intros [-> | []]. discriminate.
  - apply andb_true_iff in O as [O1 O2]. intros I.
    apply in_app_or in I as [I|I]; [now apply IHM1 | now apply IHM2].
  - apply andb_true_iff in O as [O1 _]. now apply IHM.
  - apply andb_true_iff in O as [_ O2]. now apply IHM.
  - intros [].
  - intros I. apply in_app_or in I as [I|I]; [now apply IHM1 | now apply IHM2].
Qed.

(** A block without line feed that starts before a line feed ends
    before it. *)
Lemma prefix_before_line_feed (p t a b : str) :
  p ++ t = a ++ LF :: b -> ~ In LF p -> exists t', a = p ++ t'.
Proof.
  intros E N. apply app_eq_app in E as [l [[-> E] | [-> _]]].
  - destruct l as [|x l]; [exists []; now rewrite !app_nil_r|].
    injection E as <- _. exfalso. apply N, in_or_app. right. now left.
  - now exists l.
Qed.

Lemma re_match_first_line (r : regex) (a b : str) :
  one_line r = true -> re_match r (a ++ LF :: b) = re_match r a.
Proof.
  intros O. apply eq_true_iff_eq. rewrite !re_match_spec. split.
  - intros (p & t & E & M). symmetry in E.
    destruct (prefix_before_line_feed p t a b E (one_line_matches O M))
      as [t' ->].
    now exists p, t'.
  - intros (p & t & -> & M). exists p, (t ++ LF :: b).
    split; [now rewrite <- app_assoc | assumption].
Qed.

Lemma re_search_lines (r : regex) (a b : str) :
  one_line r = true ->
  re_search r (a ++ LF :: b) = re_search r a || re_search r b.
Proof.
  intros O. apply eq_true_iff_eq.
  rewrite orb_true_iff, !re_search_spec. split.
  - intros (x & p & t & E & M). pose proof (one_line_matches O M) as N.
    symmetry in E. apply app_eq_app in E as [l [[-> E] | [-> E]]].
    + (* the match starts at or behind the line feed *)
      destruct l as [|y l].
      * destruct p as [|z p].
        -- left. exists a, [], []. split; [now rewrite !app_nil_r | assumption].
        -- injection E as <- _. exfalso. apply N. now left.
      * injection E as <- ->. right. now exists l, p, t.
    + (* the match starts before the line feed *)
      destruct (prefix_before_line_feed p t l b E N) as [t' ->].
      left. now exists x, p, t'.
  - intros [(x & p & t & -> & M) | (x & p & t & -> & M)].
    + exists x, p, (t ++ LF :: b). split; [|assumption].
      now rewrite <- !app_assoc.
    + exists (a ++ LF :: x), p, t. split; [|assumption].
      now rewrite <- app_assoc.
Qed.

Lemma tables_one_line (p : regex) (sql : str) :
  In (p, sql) fallback_patterns \/ In (p, sql) patterns -> one_line p = true.
Proof.
  intros I.
  assert (F : forallb (fun e => one_line (fst e))
                (fallback_patterns ++ patterns) = true)
    by (vm_compute; reflexivity).
  rewrite forallb_forall in F. apply (F (p, sql)).
  apply in_or_app. tauto.
Qed.

(** Two questions that every test of the table tells alike. *)
Lemma first_hit_agree test (table : list (regex * str)) (q q' : pyobj) :
  (forall p sql, In (p, sql) table -> test p q = test p q') ->
  first_hit test table q = first_hit test table q'.
Proof.
  induction table as [|[p0 s0] table IH]; intros H; cbn [first_hit];
    [reflexivity|].
  rewrite (H p0 s0) by now left. rewrite IH; [reflexivity|].
  intros p sql I. apply (H p sql). now right.
Qed.

Lemma first_hit_none_inv (f : regex -> str -> bool) (rt : Runtime)
  (table : list (regex * str)) (q : str) :
  first_hit (fun p o => match o with
                        | PyStr s => ret (f p s)
                        | PyNone => raise (TypeError (subject_error rt))
                        end) table (PyStr q) = inr None ->
  forall p sql, In (p, sql) table -> f p q = false.
Proof.
  induction table as [|[p0 s0] table IH]; intros H p sql I; [contradiction|].
  cbn [first_hit bind ret] in H. destruct (f p0 q) eqn:E; [discriminate|].
  destruct I as [I | I]; [injection I as <- _; exact E|].
  now apply (IH H p sql).
Qed.

(** X9.  The first table is tried on the first line of the question only:
    when the text before the first line feed matches a pattern of the first
    table, the resolver returns for the whole question what it returns for
    that line, and when it matches none, no pattern of the first table is
    found in the whole question, whatever the later lines hold. *)
Theorem first_table_reads_first_line (rt : Runtime) (self : QueryProcessor)
  (a b : str) :
  ((exists p sql, In (p, sql) fallback_patterns /\ re_match p a = true) ->
   natural_language_to_sql rt self (PyStr (a ++ LF :: b)) =
   natural_language_to_sql rt self (PyStr a)) /\
  ((forall p sql, In (p, sql) fallback_patterns -> re_match p a = false) ->
   first_hit (py_re_match rt) fallback_patterns (PyStr (a ++ LF :: b)) =
   inr None).
Proof.
  assert (A : first_hit (py_re_match rt) fallback_patterns
                (PyStr (a ++ LF :: b)) =
              first_hit (py_re_match rt) fallback_patterns (PyStr a)).
  { apply first_hit_agree. intros p sql I. cbn.
    rewrite re_match_first_line; [reflexivity|].
    apply (@tables_one_line p sql). now left. }
  split.
  - intros (p & sql & I & M).
    unfold natural_language_to_sql, resolve_body. rewrite A.
    destruct (@first_hit_total (py_re_match rt) fallback_patterns (PyStr a))
      as [N | (p' & sql' & _ & ->)].
    + intros r. now exists (re_match r a).
    + apply (first_hit_none_inv re_match rt) with (p := p) (sql := sql) in N;
        [congruence | assumption].
    + reflexivity.
  - intros H. rewrite A. apply first_hit_none.
    intros p sql I. cbn. now rewrite (H p sql I).
Qed.

Lemma first_table_reads_first_line_witness :
  natural_language_to_sql (remote_answers "SELECT 1") with_key
    (PyStr "total sales
and then the customers by city") =
  natural_language_to_sql (remote_answers "SELECT 1") with_key
    (PyStr "total sales") /\
  first_hit (py_re_match remote_down) fallback_patterns
    (PyStr "hello
show me all sales") = inr None.
Proof.
  split.
  - apply (proj1 (@first_table_reads_first_line (remote_answers "SELECT 1")
                    with_key "total sales" "and then the customers by city")).
    exists (seq [any_star; lit "total sales"; any_star]),
      ("SELECT SUM(price * quantity) as total_sales FROM sales" : str).
    split; [do 2 right; now left | vm_compute; reflexivity].
  - apply (proj2 (@first_table_reads_first_line remote_down without_key
                    "hello" "show me all sales")).
    apply no_hit_from_forallb. vm_compute. reflexivity.
Defined.

(** X10.  The second table is tried on every line: a pattern of the second
    table is found in a question exactly when it is found in the text
    before a line feed or in the text behind it, never across the two. *)
Theorem second_table_reads_each_line (p : regex) (sql : str) (a b : str) :
  In (p, sql) patterns ->
  re_search p (a ++ LF :: b) = re_search p a || re_search p b.
Proof.
  intros I. apply re_search_lines, (@tables_one_line p sql). now right.
Qed.

Lemma second_table_reads_each_line_witness :
  re_search (seq [any_star; lit "count"; any_star; lit "sales"])
    ("count" ++ LF :: "sales") = false.
Proof.
  rewrite (@second_table_reads_each_line
             (seq [any_star; lit "count"; any_star; lit "sales"])
             "SELECT COUNT(*) as total_sales_count FROM sales"
             "count" "sales").
  - reflexivity.
  - do 10 right. now left.
Defined.

(** ** What a literal pattern means *)

Lemma matches_lit (l m : str) : matches (lit l) m <-> same_letters l m.
Proof.
  unfold same_letters, lower. revert m; induction l as [|c l IH]; intros m.
  - cbn. split.
    + intros H. inversion H. reflexivity.
    + intros H. destruct m; [constructor | discriminate].
  - cbn [lit fold_right map]. fold (lit l). split.
    + intros H. inversion H as [| | | ? ? s1 s2 M1 M2 | | | |]; subst.
      inversion M1 as [|? x C| | | | | |]; subst.
      apply IH in M2. cbn [app map]. rewrite <- M2. f_equal.
      unfold chr_match in C. now apply eqb_char_eq in C.
    + intros H. destruct m as [|x m]; [discriminate|].
      cbn [map] in H. injection H as Hc Hm.
      change (x :: m) with ([x] ++ m). constructor.
      * constructor. unfold chr_match. rewrite Hc. apply eqb_char_refl.
      * now apply IH.
Qed.

Lemma matches_any_star (a : str) : matches any_star a <-> ~ In LF a.
Proof.
  split.
  - now apply one_line_matches.
  - induction a as [|x a IH]; intros N; [constructor|].
    change (x :: a) with ([x] ++ a). constructor.
    + constructor. unfold dot_match. apply negb_true_iff, eqb_char_neq.
      intros ->. apply N. now left.
    + apply IH. intros I. apply N. now right.
Qed.

(** The literal in the first line is enough for the pattern to be found. *)
Lemma literal_pattern_meaning_aux (l a m b : str) :
  ~ In LF a -> same_letters l m ->
  re_match (seq [any_star; lit l; any_star]) (a ++ m ++ b) = true.
Proof.
  intros N L. apply re_match_spec. exists (a ++ m ++ [] ++ []), b.
  split; [now rewrite <- !app_assoc|].
  cbn [seq fold_right].
  constructor; [now apply matches_any_star|].
  constructor; [now apply matches_lit|].
  constructor; constructor.
Qed.

(** X11.  A pattern [(?i).*L.*] of the first table is found by [re.match]
    exactly in the questions whose first line holds the literal [L] in some
    letter case: the question is [a ++ m ++ b] with no line feed in [a] and
    [m] equal to [L] up to case. *)
Theorem literal_pattern_meaning (l s : str) :
  re_match (seq [any_star; lit l; any_star]) s = true <->
  exists a m b, s = a ++ m ++ b /\ ~ In LF a /\ same_letters l m.
Proof.
  rewrite re_match_spec. cbn [seq fold_right]. split.
  - intros (p & t & -> & M).
    inversion M as [| | | ? ? a r1 Ma M1 | | | |]; subst.
    inversion M1 as [| | | ? ? m r2 Mm M2 | | | |]; subst.
    exists a, m, (r2 ++ t). split; [now rewrite <- !app_assoc|].
    split; [now apply matches_any_star | now apply matches_lit].
  - intros (a & m & b & -> & N & L).
    apply re_match_spec. now apply literal_pattern_meaning_aux.
Qed.

(** X12.  Precedence of the first entry: a question whose first line holds
    [all sales] in some letter case gets the query of the first entry of the
    first table, with or without a credential, whatever else the question
    says and whatever the remote call would answer. *)
Theorem all_sales_wins (rt : Runtime) (self : QueryProcessor) (a m b : str) :
  ~ In LF a ->
  same_letters "all sales" m ->
  natural_language_to_sql rt self (PyStr (a ++ m ++ b)) =
  ("SELECT * FROM sales ORDER BY sale_date DESC" : str,
   "Pattern matching" : str).
Proof.
  intros N L.
  assert (M : re_match (seq [any_star; lit "all sales"; any_star])
                (a ++ m ++ b) = true).
  { apply literal_pattern_meaning_aux; assumption. }
  unfold natural_language_to_sql, resolve_body.
  change fallback_patterns
    with ([] ++ (seq [any_star; lit "all sales"; any_star],
                 "SELECT * FROM sales ORDER BY sale_date DESC" : str)
             :: skipn 1 fallback_patterns).
  rewrite (@first_hit_found (py_re_match rt) [] (skipn 1 fallback_patterns)).
  - reflexivity.
  - intros p' sql' [].
  - cbn [py_re_match ret]. now rewrite M.
Qed.

Lemma all_sales_wins_witness :
  natural_language_to_sql (remote_answers "SELECT 1") with_key
    (PyStr "Please show ALL Sales by category and by region") =
  ("SELECT * FROM sales ORDER BY sale_date DESC" : str,
   "Pattern matching" : str).
Proof.
  apply (@all_sales_wins (remote_answers "SELECT 1") with_key
           "Please show " "ALL Sales" " by category and by region").
  - intros K. simpl in K. intuition discriminate.
  - reflexivity.
Defined.

(** ** What the result depends on *)

Lemma first_hit_test_ext test test' (table : list (regex * str)) (q : pyobj) :
  (forall p, test p q = test' p q) ->
  first_hit test table q = first_hit test' table q.
Proof.
  intros H. induction table as [|[p0 s0] table IH]; cbn [first_hit];
    [reflexivity|].
  now rewrite H, IH.
Qed.

(** X13.  Without a credential the resolver consults neither the remote
    call nor the schema context: two processors without credential, under
    any two remote services and any two schema contexts, return the same
    result for every question, string or not.  In particular
    [set_database_schema] does not change what is returned. *)
Theorem no_credential_no_remote (rt rt' : Runtime)
  (self self' : QueryProcessor) (nl_query : pyobj) :
  truthy (openai_api_key self) = false ->
  truthy (openai_api_key self') = false ->
  subject_error rt = subject_error rt' ->
  lower_error rt = lower_error rt' ->
  natural_language_to_sql rt self nl_query =
  natural_language_to_sql rt' self' nl_query.
Proof.
  intros T T' Es El. unfold natural_language_to_sql, resolve_body.
  rewrite T, T'.
  rewrite (@first_hit_test_ext (py_re_match rt) (py_re_match rt')).
  2:{ intros p. unfold py_re_match. now rewrite Es. }
  unfold _rule_based_to_sql.
  rewrite (@first_hit_test_ext (py_re_search rt) (py_re_search rt')).
  2:{ intros p. unfold py_re_search. now rewrite Es. }
  now rewrite El.
Qed.

Lemma no_credential_no_remote_witness :
  natural_language_to_sql (remote_answers "SELECT 42")
    (set_database_schema without_key
       [ ("sales" : str,
          [ {| column_name := "id"; data_type := "integer";
               is_nullable := "NO" |} ]) ])
    (PyStr "how many rows") =
  natural_language_to_sql remote_down without_key (PyStr "how many rows").
Proof.
  apply no_credential_no_remote; reflexivity.
Defined.

(** ** What is never returned *)

Lemma check_keywords_passed (kws : list str) (u : str) :
  check_keywords kws u = inr tt ->
  startswith u "SELECT" = true \/
  forall kw, In kw kws -> contains kw u = false.
Proof.
  intros H. destruct (startswith u "SELECT") eqn:S; [now left|]. right.
  induction kws as [|k kws IH]; intros kw I; [contradiction|].
  cbn [check_keywords] in H. rewrite S, andb_true_r in H.
  destruct (contains k u) eqn:C; [discriminate|].
  destruct I as [<- | I]; [exact C | now apply IH].
Qed.

Lemma sanitized_is_harmless (sql : str) :
  clean_sql_query sql = inr sql ->
  begins_with_select sql \/ ~ mentions_keyword sql.
Proof.
  intros H. apply clean_sql_query_inv in H as [E C]. rewrite <- E in C.
  apply check_keywords_passed in C as [S | A].
  - left. now apply begins_with_select_iff.
  - right. rewrite mentions_keyword_iff. intros (kw & I & K).
    rewrite (A kw I) in K. discriminate.
Qed.

Lemma resolved_sql_is_sanitized (rt : Runtime) (self : QueryProcessor)
  (nl_query : pyobj) :
  clean_sql_query (fst (natural_language_to_sql rt self nl_query)) =
  inr (fst (natural_language_to_sql rt self nl_query)).
Proof.
  destruct nl_query as [q|]; [|reflexivity].
  destruct (resolve_cases rt self q)
    as [(p & sql & I & ->) | [(p & sql & I & ->) | [-> | (c & s & _ & S & ->)]]];
    cbn [fst].
  - now destruct (@table_sql_pass p sql (or_introl I)).
  - now destruct (@table_sql_pass p sql (or_intror I)).
  - reflexivity.
  - now apply clean_sql_query_fixed in S.
Qed.

(** X14.  Whatever the question and whatever the remote call answers, the
    SQL text the resolver returns either begins with SELECT, in some letter
    case, or holds none of the seven keywords DROP, DELETE, INSERT, UPDATE,
    ALTER, CREATE, TRUNCATE. *)
Theorem resolved_sql_is_harmless (rt : Runtime) (self : QueryProcessor)
  (nl_query : pyobj) :
  begins_with_select (fst (natural_language_to_sql rt self nl_query)) \/
  ~ mentions_keyword (fst (natural_language_to_sql rt self nl_query)).
Proof. apply sanitized_is_harmless, resolved_sql_is_sanitized. Qed.

(** ** The server's handlers *)


Lemma str_eqb_neq (a b : str) : a <> b -> str_eqb a b = false.
Proof. unfold str_eqb. now destruct (list_eq_dec ascii_dec a b). Qed.




(** *** The schema of a request *)








(** X16.  No handler raises an [HTTPException] with a status other than
    500: the exception with status 400 that a handler raises for a wrong
    task is caught by its own [except Exception] and raised again with
    status 500, the text of the first exception as the detail, and the
    processor is left as it was. *)
Theorem handlers_raise_500_only (rt : Runtime) (py : Interpreter)
  (http_exception_text : nat -> str -> str)
  (query_processor : QueryProcessor) :
  (forall request e,
     snd (Server.process_query rt py http_exception_text query_processor
            request)
     = inl e ->
     exists detail, e = Server.HTTPException 500 detail) /\
  (forall request e,
     snd (Server.validate_sql http_exception_text query_processor request)
     = inl e ->
     exists detail, e = Server.HTTPException 500 detail) /\
  (forall request e,
     snd (Server.get_suggestions http_exception_text query_processor request)
     = inl e ->
     exists detail, e = Server.HTTPException 500 detail) /\
  (forall request,
     Server.query_task request <> ("nl_to_sql" : str) ->
     Server.process_query rt py http_exception_text query_processor request =
     (query_processor,
      inl (Server.HTTPException 500
             (http_exception_text 400 "Invalid task type")))) /\
  (forall request,
     Server.validation_task request <> ("validate_sql" : str) ->
     Server.validate_sql http_exception_text query_processor request =
     (query_processor,
      inl (Server.HTTPException 500
             (http_exception_text 400 "Invalid task type")))) /\
  (forall request,
     Server.suggestion_task request <> ("suggest_queries" : str) ->
     Server.get_suggestions http_exception_text query_processor request =
     (query_processor,
      inl (Server.HTTPException 500
             (http_exception_text 400 "Invalid task type")))).
Proof.
  assert (P : forall r e, snd (Server.or_500 http_exception_text r) = inl e ->
                          exists detail, e = Server.HTTPException 500 detail).
  { intros [qp [x|body]] e; cbn; [|discriminate].
    intros H. injection H as <-. eauto. }
  split; [|split; [|split; [|split; [|split]]]].
  - intros request e. apply P.
  - intros request e. apply P.
  - intros request e. apply P.
  - intros request N. unfold Server.process_query.
    now rewrite (str_eqb_neq N).
  - intros request N. unfold Server.validate_sql.
    now rewrite (str_eqb_neq N).
  - intros request N. unfold Server.get_suggestions.
    now rewrite (str_eqb_neq N).
Qed.

Lemma handlers_raise_500_only_witness :
  Server.validate_sql (fun _ detail => detail) without_key
    {| Server.sql := "SELECT 1"; Server.validation_task := "validate" |} =
  (without_key, inl (Server.HTTPException 500 "Invalid task type")).
Proof.
  destruct (@handlers_raise_500_only remote_down Dynamic.cpython
              (fun _ detail => detail) without_key)
    as (_ & _ & _ & _ & V & _).
  apply (V {| Server.sql := "SELECT 1"; Server.validation_task := "validate" |}).
  discriminate.
Defined.

(** ** The client against the server *)

(** X17.  [MCPClient.validate_sql] answers false when the request fails
    and when the status is not 200.  The task it sends is the one
    the server's handler accepts, so the handler answers with a body, and
    when that body is what comes back with status 200 the client returns
    the answer of the advisory check for the text it was given. *)
Theorem client_validate_sql (post : str -> dict -> option (nat * dict))
  (http_exception_text : nat -> str -> str)
  (query_processor : QueryProcessor) (sql_query : str) :
  let request_data : dict :=
    [ ("sql" : str, JStr sql_query); ("task" : str, JStr "validate_sql") ] in
  let request :=
    {| Server.sql := sql_query; Server.validation_task := "validate_sql" |} in
  (post "validate" request_data = None ->
   MCPClient.validate_sql post sql_query = JBool false) /\
  (forall status body,
     post "validate" request_data = Some (status, body) ->
     status <> 200 ->
     MCPClient.validate_sql post sql_query = JBool false) /\
  (exists body,
     Server.validate_sql http_exception_text query_processor request =
     (query_processor, inr body) /\
     (post "validate" request_data = Some (200, body) ->
      MCPClient.validate_sql post sql_query = JBool (validate_sql sql_query))).
Proof.
  intros request_data request. unfold MCPClient.validate_sql.
  fold request_data. unfold MCPClient.send_request.
  split; [|split].
  - now intros ->.
  - intros status body -> N.
    now rewrite (proj2 (Nat.eqb_neq status 200) N).
  - eexists. split; [reflexivity|]. now intros ->.
Qed.

Lemma client_validate_sql_witness :
  MCPClient.validate_sql
    (fun _ _ => Some (503, [ ("detail" : str, JStr "Service Unavailable") ]))
    "SELECT 1" = JBool false.
Proof.
  apply (proj1 (proj2 (@client_validate_sql
           (fun _ _ => Some (503, [ ("detail" : str, JStr "Service Unavailable") ]))
           (fun _ detail => detail) without_key "SELECT 1"))
           503 [ ("detail" : str, JStr "Service Unavailable") ]).
  - reflexivity.
  - discriminate.
Defined.

(** ** The database wrapper and the query form *)

Lemma sanitized_strip (sql : str) :
  clean_sql_query sql = inr sql -> strip sql = sql.
Proof.
  intros H. apply clean_sql_query_inv in H as [E _]. rewrite E.
  apply strip_collapse_whitespace.
Qed.

(** X18.  [execute_query] returns [None] for a blank query, empty or of
    white space only, whatever the database would answer, and for every
    query when there is no connection and none can be made; it leaves an
    existing connection as it is. *)
Theorem execute_query_none (dataframe : Type) (accepts_connection : bool)
  (read_sql : str -> result dataframe) (self : Postgres.PostgresDB)
  (query : str) :
  (Forall (fun c => is_space c = true) query ->
   snd (Postgres.execute_query accepts_connection read_sql self query) = None) /\
  (Postgres.connection self = false -> accepts_connection = false ->
   Postgres.execute_query accepts_connection read_sql self query =
   (self, None)) /\
  (Postgres.connection self = true ->
   fst (Postgres.execute_query accepts_connection read_sql self query) = self).
Proof.
  unfold Postgres.execute_query, Postgres.connect. split; [|split].
  - intros B. apply strip_empty_iff_blank in B. rewrite B.
    destruct (Postgres.connection self), accepts_connection; reflexivity.
  - intros -> ->. reflexivity.
  - intros ->. cbn [negb].
    destruct (try_except _ _) as [e|r]; reflexivity.
Qed.

Lemma execute_query_none_witness :
  snd (Postgres.execute_query true (fun _ => inr 7)
         {| Postgres.connection := true |} [SP; LF]) = None.
Proof.
  apply (proj1 (@execute_query_none nat true (fun _ => inr 7)
                  {| Postgres.connection := true |} [SP; LF])).
  repeat constructor.
Defined.

(** X19.  Over an existing connection the database is asked exactly the
    SQL text the resolver returned, character for character, unless that
    text is empty: the [strip] of [execute_query] changes nothing in it. *)
Theorem resolved_sql_reaches_database (rt : Runtime)
  (processor : QueryProcessor) (nl_query : pyobj) (dataframe : Type)
  (accepts_connection : bool) (read_sql : str -> result dataframe)
  (db : Postgres.PostgresDB) :
  Postgres.connection db = true ->
  fst (natural_language_to_sql rt processor nl_query) <> [] ->
  Postgres.execute_query accepts_connection read_sql db
    (fst (natural_language_to_sql rt processor nl_query)) =
  (db,
   match read_sql (fst (natural_language_to_sql rt processor nl_query)) with
   | inr result => Some result
   | inl _ => None
   end).
Proof.
  intros C N. unfold Postgres.execute_query. rewrite C. cbn [negb].
  rewrite (sanitized_strip (resolved_sql_is_sanitized rt processor nl_query)).
  destruct (fst (natural_language_to_sql rt processor nl_query)) as [|c sql];
    [congruence|].
  cbn [bind ret]. now destruct (read_sql (c :: sql)).
Qed.

Lemma resolved_sql_reaches_database_witness :
  Postgres.execute_query false
    (fun query => inr (length query)) {| Postgres.connection := true |}
    (fst (natural_language_to_sql remote_down without_key
            (PyStr "Show me all sales data"))) =
  ({| Postgres.connection := true |}, Some 43).
Proof.
  rewrite (@resolved_sql_reaches_database remote_down without_key
             (PyStr "Show me all sales data") nat false
             (fun query => inr (length query))
             {| Postgres.connection := true |} eq_refl).
  - vm_compute. reflexivity.
  - vm_compute. discriminate.
Defined.





(** ** Requests do not interfere *)

Lemma process_query_by_credential (rt : Runtime) (py : Interpreter)
  (http_exception_text : nat -> str -> str)
  (processor processor' : QueryProcessor) (request : Server.QueryRequest) :
  openai_api_key processor = openai_api_key processor' ->
  snd (Server.process_query rt py http_exception_text processor request) =
  snd (Server.process_query rt py http_exception_text processor' request) /\
  openai_api_key
    (fst (Server.process_query rt py http_exception_text processor request)) =
  openai_api_key processor.
Proof.
  intros K. unfold Server.process_query.
  destruct (negb (str_eqb (Server.query_task request) "nl_to_sql"));
    [now split|].
  unfold Dynamic.set_database_schema. rewrite K.
  destruct (Dynamic.for_each _ _) as [e|schema_parts]; [now split|].
  rewrite (surjective_pairing (natural_language_to_sql rt _ _)).
  now split.
Qed.

(** The processor after a run of [/process] requests. *)
Lemma processor_after_requests (rt : Runtime) (py : Interpreter)
  (http_exception_text : nat -> str -> str)
  (earlier : list Server.QueryRequest) (processor : QueryProcessor) :
  openai_api_key
    (fold_left
       (fun p r => fst (Server.process_query rt py http_exception_text p r))
       earlier processor) =
  openai_api_key processor.
Proof.
  revert processor; induction earlier as [|r earlier IH]; intros processor;
    cbn [fold_left]; [reflexivity|].
  rewrite IH.
  now destruct (@process_query_by_credential rt py http_exception_text
                  processor processor r eq_refl).
Qed.

(** X21.  Although the server's processor is shared by all requests and
    [/process] stores the schema of each request in it, the answer to a
    [/process] request does not depend on the requests handled before it:
    it is the answer the fresh processor would give. *)
Theorem process_query_forgets_earlier_requests (rt : Runtime)
  (py : Interpreter) (http_exception_text : nat -> str -> str)
  (earlier : list Server.QueryRequest) (processor : QueryProcessor)
  (request : Server.QueryRequest) :
  snd (Server.process_query rt py http_exception_text
         (fold_left
            (fun p r =>
               fst (Server.process_query rt py http_exception_text p r))
            earlier processor)
         request) =
  snd (Server.process_query rt py http_exception_text processor request).
Proof.
  apply process_query_by_credential, processor_after_requests.
Qed.

(** ** What the method tag tells *)

Lemma first_hit_some_inv (f : regex -> str -> bool) (rt : Runtime)
  (table : list (regex * str)) (q sql : str) :
  first_hit (fun p o => match o with
                        | PyStr s => ret (f p s)
                        | PyNone => raise (TypeError (subject_error rt))
                        end) table (PyStr q) = inr (Some sql) ->
  exists pre p post,
    table = pre ++ (p, sql) :: post /\ f p q = true /\
    forall p' sql', In (p', sql') pre -> f p' q = false.
Proof.
  induction table as [|[p0 s0] table IH]; intros H; [discriminate|].
  cbn [first_hit bind ret] in H. destruct (f p0 q) eqn:E.
  - injection H as <-. exists [], p0, table.
    split; [reflexivity|]. split; [assumption | intros ? ? []].
  - destruct (IH H) as (pre & p & post & -> & Hp & Hpre).
    exists ((p0, s0) :: pre), p, post.
    split; [reflexivity|]. split; [assumption|].
    intros p' sql' [I | I]; [injection I as <- _; exact E | now apply (Hpre p' sql')].
Qed.

(** X22.  The method tag tells how the SQL was found.  [Pattern matching]:
    it is the SQL of the first entry of the first table whose pattern is
    found at the start of the question.  [Rule-based matching]: no pattern
    of the first table is found and it is the SQL of the first entry of the
    second table whose pattern is found.  [Default fallback]: no pattern of
    either table is found.  [OpenAI GPT]: a credential is configured, no
    pattern of the first table is found, and it is what the sanitizer made
    of the answer of the remote call. *)
Theorem method_tells_provenance (rt : Runtime) (self : QueryProcessor)
  (q : str) :
  let r := natural_language_to_sql rt self (PyStr q) in
  (snd r = ("Pattern matching" : str) ->
   exists pre p post,
     fallback_patterns = pre ++ (p, fst r) :: post /\ re_match p q = true /\
     forall p' sql', In (p', sql') pre -> re_match p' q = false) /\
  (snd r = ("Rule-based matching" : str) ->
   (forall p sql, In (p, sql) fallback_patterns -> re_match p q = false) /\
   exists pre p post,
     patterns = pre ++ (p, fst r) :: post /\ re_search p q = true /\
     forall p' sql', In (p', sql') pre -> re_search p' q = false) /\
  (snd r = ("Default fallback" : str) ->
   fst r = ("SELECT * FROM sales LIMIT 10" : str) /\
   (forall p sql, In (p, sql) fallback_patterns -> re_match p q = false) /\
   (forall p sql, In (p, sql) patterns -> re_search p q = false)) /\
  (snd r = ("OpenAI GPT" : str) ->
   truthy (openai_api_key self) = true /\
   (forall p sql, In (p, sql) fallback_patterns -> re_match p q = false) /\
   exists content,
     chat_completion rt (schema_context self) (PyStr q) = inr content /\
     clean_sql_query (strip content) = inr (fst r)).
Proof.
  intros r. subst r. unfold natural_language_to_sql, resolve_body.
  fold (py_re_match rt).
  destruct (first_hit (py_re_match rt) fallback_patterns (PyStr q))
    as [e | [sql|]] eqn:F1.
  - destruct (@first_hit_total (py_re_match rt) fallback_patterns (PyStr q))
      as [K | (p & s & _ & K)];
      [intros p; now exists (re_match p q) | congruence | congruence].
  - (* found in the first table *)
    cbn [bind ret fst snd].
    split; [|split; [|split]]; try discriminate.
    intros _. now apply (first_hit_some_inv re_match rt).
  - (* not found in the first table *)
    pose proof (first_hit_none_inv re_match rt _ _ F1) as N1.
    cbn [bind].
    assert (RB : forall x,
               _rule_based_to_sql rt (PyStr q) = x ->
               exists sql m, x = inr (sql, m) /\
               (m = ("Rule-based matching" : str) /\
                (exists pre p post,
                   patterns = pre ++ (p, sql) :: post /\ re_search p q = true /\
                   forall p' sql', In (p', sql') pre -> re_search p' q = false)
                \/
                m = ("Default fallback" : str) /\
                sql = ("SELECT * FROM sales LIMIT 10" : str) /\
                forall p s, In (p, s) patterns -> re_search p q = false)).
    { intros x <-. unfold _rule_based_to_sql. cbn [bind ret].
      fold (py_re_search rt).
      destruct (first_hit (py_re_search rt) patterns (PyStr q))
        as [e | [sql|]] eqn:F2.
      - destruct (@first_hit_total (py_re_search rt) patterns (PyStr q))
          as [K | (p & s & _ & K)];
          [intros p; now exists (re_search p q) | congruence | congruence].
      - exists sql, ("Rule-based matching" : str). split; [reflexivity|].
        left. split; [reflexivity|].
        now apply (first_hit_some_inv re_search rt).
      - exists ("SELECT * FROM sales LIMIT 10" : str),
          ("Default fallback" : str).
        split; [reflexivity|]. right. split; [reflexivity|].
        split; [reflexivity|].
        exact (first_hit_none_inv re_search rt _ _ F2). }
    destruct (truthy (openai_api_key self)) eqn:T.
    + unfold _openai_to_sql.
      destruct (chat_completion rt (schema_context self) (PyStr q))
        as [e|content] eqn:C; cbn [bind try_except].
      * destruct (RB _ eq_refl) as (sql & m & -> & [[-> P] | (-> & -> & P)]);
          cbn [fst snd]; (split; [|split; [|split]]); try discriminate;
          intros _; auto.
      * destruct (clean_sql_query (strip content)) as [e|cleaned] eqn:S;
          cbn [bind try_except ret].
        -- destruct (RB _ eq_refl) as (sql & m & -> & [[-> P] | (-> & -> & P)]);
             cbn [fst snd]; (split; [|split; [|split]]); try discriminate;
             intros _; auto.
        -- cbn [fst snd]. (split; [|split; [|split]]); try discriminate.
           intros _. split; [reflexivity|]. split; [exact N1|].
           now exists content.
    + destruct (RB _ eq_refl) as (sql & m & -> & [[-> P] | (-> & -> & P)]);
        cbn [fst snd]; (split; [|split; [|split]]); try discriminate;
        intros _; auto.
Qed.

Lemma method_tells_provenance_witness :
  forallb (fun entry => negb (re_search (fst entry) "how many cities"))
    patterns = true.
Proof.
  destruct (@method_tells_provenance remote_down without_key "how many cities")
    as (_ & _ & Default & _).
  destruct Default as (_ & _ & N); [vm_compute; reflexivity|].
  apply forallb_forall. intros [p sql] I. cbn [fst].
  now rewrite (N p sql I).
Defined.
